(** * collection2: schema-driven validation around collection writes

    A shallow embedding of [collection2.js]: the index set-up of
    [c2AttachSchema], the custom validation rule registered with
    [ss.validator], the write interceptor, [doValidate] and
    [wrapCallbackForNotUnique], followed by the properties of the write
    path that the specification states. *)

From Stdlib Require Import ZArith String Ascii List Bool Lia.
From stdpp Require Import base decidable option list strings gmap.

Local Open Scope Z_scope.
Local Open Scope string_scope.

(** ** JavaScript values *)

(** Objects live in a store and are named by their location, so two
    references to one object see each other's updates. *)
Abbreviation loc := positive.

(** The values that reach the write path.  A function is one of: a function
    supplied by the caller, the logging callback synthesized by [doValidate]
    on the client, or the closure returned by [wrapCallbackForNotUnique]
    (which captures [doc], [vCtx] and [cb]).  Numbers are the integers. *)
Inductive value : Type :=
| VUndef
| VNull
| VBool (b : bool)
| VNum (n : Z)
| VStr (s : string)
| VObj (l : loc)
| VFun (id : nat)
| VLogger (type : string)
| VNotUnique (doc vCtx cb : value).

#[global] Instance value_eq_dec : EqDecision value.
Proof. solve_decision. Defined.

(** [!!v] *)
Definition truthy (v : value) : bool :=
  match v with
  | VUndef | VNull => false
  | VBool b => b
  | VNum n => negb (Z.eqb n 0)
  | VStr s => negb (String.eqb s "")
  | VObj _ | VFun _ | VLogger _ | VNotUnique _ _ _ => true
  end.

(** [typeof v === "function"] *)
Definition is_function (v : value) : bool :=
  match v with
  | VFun _ | VLogger _ | VNotUnique _ _ _ => true
  | _ => false
  end.

(** [_.isObject(v)]: objects and functions. *)
Definition isObject (v : value) : bool :=
  match v with
  | VObj _ | VFun _ | VLogger _ | VNotUnique _ _ _ => true
  | _ => false
  end.

(** [a === b] on values (objects compare by reference). *)
Definition strict_eq (a b : value) : bool := bool_decide (a = b).

(** ** Plain objects: ordered property lists *)

Definition obj : Type := list (string * value).

Section Props.
Context {A : Type}.

(** [o[k]], [None] when [k] is not an own property. *)
Fixpoint prop_get (k : string) (o : list (string * A)) : option A :=
  match o with
  | [] => None
  | (k', v) :: o' => if String.eqb k k' then Some v else prop_get k o'
  end.

(** [o[k] = v]: an existing property keeps its place, a new one goes last. *)
Fixpoint prop_set (k : string) (v : A) (o : list (string * A)) : list (string * A) :=
  match o with
  | [] => [(k, v)]
  | (k', v') :: o' =>
      if String.eqb k k' then (k, v) :: o' else (k', v') :: prop_set k v o'
  end.

(** [delete o[k]] *)
Fixpoint prop_delete (k : string) (o : list (string * A)) : list (string * A) :=
  match o with
  | [] => []
  | (k', v') :: o' =>
      if String.eqb k k' then prop_delete k o' else (k', v') :: prop_delete k o'
  end.


(** [_.extend(target, source)] *)
Definition extend (target source : list (string * A)) : list (string * A) :=
  fold_left (fun t kv => prop_set (fst kv) (snd kv) t) source target.
End Props.

(** ** Strings *)

(** [s.indexOf(pat)] *)
Definition indexOf (s pat : string) : Z :=
  match String.index 0 pat s with
  | Some n => Z.of_nat n
  | None => -1
  end.

(** [s.split(sep)] for a non-empty separator.  [skip] counts the characters
    of a separator just matched that are still to be dropped, [cur] is the
    current piece. *)
Fixpoint split_from (sep : string) (skip : nat) (cur : string) (s : string)
  : list string :=
  match s with
  | EmptyString => [cur]
  | String c s' =>
      match skip with
      | S n => split_from sep n cur s'
      | O =>
          if String.prefix sep s
          then cur :: split_from sep (Nat.pred (String.length sep)) "" s'
          else split_from sep O (cur +:+ String c "") s'
      end
  end.

Definition split (sep s : string) : list string := split_from sep O "" s.

(** ** Field definitions and index set-up (lines 82-110) *)

(** The schema options of a field that this package reads.  [def_index] is
    [None] when the definition has no [index] property. *)
Record FieldDef : Type := {
  def_index : option value;
  def_unique : option bool;
  def_denyInsert : option bool;
  def_denyUpdate : option bool;
  def_optional : option bool
}.

(** [!!flag] for an optional boolean option. *)
Definition flag (f : option bool) : bool := default false f.

Record IndexOptions : Type := {
  io_background : bool;
  io_name : string;
  io_unique : bool;
  io_sparse : bool
}.

(** What the start-up function of a field does to the collection. *)
Inductive IndexCall : Type :=
| EnsureIndex (field : string) (direction : value) (opts : IndexOptions)
| DropIndex (name : string).

(** [indexValue] after line 89-90. *)
Definition resolve_index (indexValue : value) : value :=
  if strict_eq indexValue (VBool true) then VNum 1 else indexValue.

Definition index_unique (definition : FieldDef) (indexValue : value) : bool :=
  flag (def_unique definition)
  && (strict_eq indexValue (VNum 1) || strict_eq indexValue (VNum (-1))).

Definition index_sparse (definition : FieldDef) (indexValue : value) : bool :=
  flag (def_optional definition) && index_unique definition indexValue.

(** The body of the [_.each] callback: [None] when nothing is scheduled. *)
Definition ensure_field_index (isServer : bool) (fieldName : string)
    (definition : FieldDef) : option IndexCall :=
  match def_index definition with
  | Some indexValue0 =>
      if isServer then
        let indexName := "c2_" +:+ fieldName in
        let indexValue := resolve_index indexValue0 in
        let unique := index_unique definition indexValue in
        let sparse := index_sparse definition indexValue in
        if negb (strict_eq indexValue (VBool false))
        then Some (EnsureIndex fieldName indexValue
                     {| io_background := true; io_name := indexName;
                        io_unique := unique; io_sparse := sparse |})
        else Some (DropIndex indexName)
      else None
  | None => None
  end.

(** ** The storage queries issued by the validation rule *)

(** The two query shapes the rule builds: [{f: v}] and [{f: {$ne: v}}]. *)
Inductive cond : Type :=
| CEq (v : value)
| CNe (v : value).

Definition query : Type := list (string * cond).

(** The cached selector [self._c2._selector] as the rule sees it: falsy,
    a string (a document id), or a selector object. *)
Inductive selector : Type :=
| SelNone
| SelStr (s : string)
| SelObj (q : query).

(** The result of the rule: [true] or the name of an error kind. *)
Inductive verdict : Type :=
| Valid
| Invalid (kind : string).

#[global] Instance verdict_eq_dec : EqDecision verdict.
Proof. solve_decision. Defined.

(** [this.operator] is a modifier operator name or null. *)
Definition op_truthy (op : option string) : bool :=
  match op with
  | Some s => negb (String.eqb s "")
  | None => false
  end.

Definition op_is (op : option string) (name : string) : bool :=
  match op with
  | Some s => String.eqb s name
  | None => false
  end.

(** [[1, -1, true].indexOf(def.index) !== -1] *)
Definition has_usable_index (def : FieldDef) : bool :=
  match def_index def with
  | Some v =>
      strict_eq v (VNum 1) || strict_eq v (VNum (-1)) || strict_eq v (VBool true)
  | None => false
  end.

Section Validator.
(** [Meteor.isServer], [self._skipClientUniqueCheck], the cached selector,
    and the storage capability: [self.find(q).count()] and whether
    [self.findOne(q)] finds a document. *)
Variable isServer : bool.
Variable skipClientUniqueCheck : bool.
Variable c2_selector : selector.
Variable find_count : query -> nat.
Variable findOne : query -> bool.

(** Lines 156-168, once [sel] is a selector object. *)
Definition count_check (val : value) (key : string) (sel : query) : verdict :=
  let test : query := [(key, CEq val)] in
  let totalUsing := find_count test in
  let totalWillUse := find_count (prop_set key (CNe val) sel) in
  if (1 <? totalUsing + totalWillUse)%nat then Invalid "notUnique" else Valid.

(** The uniqueness part of the rule, lines 146-171. *)
Definition unique_check (val : value) (op : option string) (key : string)
  : verdict :=
  let test : query := [(key, CEq val)] in
  if op_truthy op && negb (op_is op "$inc") then
    match c2_selector with
    | SelNone => Valid
    | SelStr s =>
        if String.eqb s "" then Valid
        else count_check val key [("_id", CEq (VStr s))]
    | SelObj q => count_check val key q
    end
  else
    if findOne test then Invalid "notUnique" else Valid.

(** The function passed to [ss.validator], lines 113-175. *)
Definition validator (def : FieldDef) (val : value) (op : option string)
    (key : string) : verdict :=
  if flag (def_denyInsert def) && negb (strict_eq val VUndef) && negb (op_truthy op)
  then Invalid "insertNotAllowed"
  else if flag (def_denyUpdate def) && op_truthy op
          && (negb (op_is op "$set")
              || (op_is op "$set" && negb (strict_eq val VUndef)))
  then Invalid "updateNotAllowed"
  else if flag (def_unique def) && negb skipClientUniqueCheck then
    if strict_eq val VUndef || strict_eq val VNull then Valid
    else if isServer && has_usable_index def then Valid
    else unique_check val op key
  else Valid.
End Validator.

(** ** A list-backed collection

    Modelled from the spec: the storage capability [count(query)] and
    [findOne(query)], which is not part of this package.  A stored document
    is a flat property list; [{f: v}] matches a document whose [f] is [v],
    [{f: {$ne: v}}] one whose [f] is anything else or absent; a query matches
    when all its conditions do. *)
Definition document : Type := list (string * value).

Definition holds (c : cond) (field : option value) : bool :=
  match c with
  | CEq v => bool_decide (field = Some v)
  | CNe v => negb (bool_decide (field = Some v))
  end.

Definition matches (q : query) (d : document) : bool :=
  forallb (fun kc => holds (snd kc) (prop_get (fst kc) d)) q.

Definition count_in (coll : list document) (q : query) : nat :=
  length (List.filter (matches q) coll).

Definition found_in (coll : list document) (q : query) : bool :=
  existsb (matches q) coll.

(** The rule over a list-backed collection. *)
Definition validator_on (isServer skip : bool) (sel : selector)
    (coll : list document) : FieldDef -> value -> option string -> string -> verdict :=
  validator isServer skip sel (count_in coll) (found_in coll).

(** The two counts as the specification words them: the documents of the
    whole collection that hold [val] in [key], and the documents matched by
    the selector whose [key] differs from [val]. *)
Definition countMatchingValue (coll : list document) (key : string) (val : value)
  : nat :=
  length (List.filter (fun d => bool_decide (prop_get key d = Some val)) coll).

Definition countWillAdopt (coll : list document) (sel : query) (key : string)
    (val : value) : nat :=
  length (List.filter
            (fun d => matches sel d && negb (bool_decide (prop_get key d = Some val)))
            coll).

(** The selector object the rule works with, [None] when [!sel]. *)
Definition selector_query (sel : selector) : option query :=
  match sel with
  | SelNone => None
  | SelStr s => if String.eqb s "" then None else Some [("_id", CEq (VStr s))]
  | SelObj q => Some q
  end.

(** ** Errors, invalid keys and the calls to collaborators *)

Record InvalidKey : Type := {
  ik_name : string;
  ik_type : string;
  ik_value : value;
  ik_message : string
}.

(** An error object: [name], [code], [message] and, for a validation
    failure, the [invalidKeys] attached at line 467. *)
Record ErrorObj : Type := {
  err_name : string;
  err_code : option Z;
  err_message : string;
  err_invalidKeys : option (list InvalidKey)
}.

(** [new Error(message)] *)
Definition new_Error (message : string) : ErrorObj :=
  {| err_name := "Error"; err_code := None; err_message := message;
     err_invalidKeys := None |}.

(** The error raised by reading a property of [undefined] or [null], or by
    calling a value that is not a function. *)
Definition TypeError : ErrorObj :=
  {| err_name := "TypeError"; err_code := None; err_message := "";
     err_invalidKeys := None |}.

(** [extendAutoValueContext] and [extendedCustomContext]. *)
Record OperationContext : Type := {
  isInsert : bool;
  isUpdate : bool;
  isUpsert : bool;
  userId : value;
  isFromTrustedCode : bool
}.

Record CleanOptions : Type := {
  co_filter : bool;
  co_autoConvert : bool;
  co_getAutoValues : bool;
  co_isModifier : bool;
  co_extendAutoValueContext : OperationContext
}.

Record ValidateOptions : Type := {
  vo_modifier : bool;
  vo_upsert : bool;
  vo_extendedCustomContext : OperationContext
}.

(** What the write path asks of its collaborators, in the order it asks. *)
Inductive Event : Type :=
| EvClean (target : value) (opts : CleanOptions)
| EvValidate (vCtx : value) (target : value) (opts : ValidateOptions)
| EvCall (f : value) (error : option ErrorObj) (rest : list value)
| EvDebug (prefix : string) (error : ErrorObj)
| EvMakeNewID
| EvSuper (methodName : string) (args : list value).

(** ** State and control *)

(** The objects, the selector cached on the collection
    ([self._c2._selector]), the invalid keys of each named validation context
    (a context is named by the value given to [namedContext]), and the calls
    made so far. *)
Record State : Type := {
  heap : gmap loc obj;
  cached_selector : value;
  contexts : list (value * list InvalidKey);
  trace : list Event
}.

Inductive Outcome (A : Type) : Type :=
| Returned (a : A)
| Thrown (e : ErrorObj).
Arguments Returned {A} a.
Arguments Thrown {A} e.

(** A computation changes the state and returns or throws; what it did to
    the state before throwing stays done. *)
Definition M (A : Type) : Type := State -> Outcome A * State.

#[global] Instance M_ret : MRet M := fun A a st => (Returned a, st).

#[global] Instance M_bind : MBind M := fun A B f m st =>
  match m st with
  | (Returned a, st') => f a st'
  | (Thrown e, st') => (Thrown e, st')
  end.

Definition throw {A : Type} (e : ErrorObj) : M A := fun st => (Thrown e, st).

Definition get_heap : M (gmap loc obj) := fun st => (Returned (heap st), st).

Definition set_heap (h : gmap loc obj) : M unit := fun st =>
  (Returned tt, {| heap := h; cached_selector := cached_selector st;
                   contexts := contexts st; trace := trace st |}).

Definition get_selector : M value := fun st => (Returned (cached_selector st), st).

Definition set_selector (v : value) : M unit := fun st =>
  (Returned tt, {| heap := heap st; cached_selector := v;
                   contexts := contexts st; trace := trace st |}).

Definition log (e : Event) : M unit := fun st =>
  (Returned tt, {| heap := heap st; cached_selector := cached_selector st;
                   contexts := contexts st; trace := trace st ++ [e] |}).

(** [namedContext(vCtx)._invalidKeys] *)
Fixpoint context_keys (vCtx : value) (cs : list (value * list InvalidKey))
  : list InvalidKey :=
  match cs with
  | [] => []
  | (n, ks) :: cs' => if strict_eq vCtx n then ks else context_keys vCtx cs'
  end.

Fixpoint context_put (vCtx : value) (ks : list InvalidKey)
    (cs : list (value * list InvalidKey)) : list (value * list InvalidKey) :=
  match cs with
  | [] => [(vCtx, ks)]
  | (n, ks') :: cs' =>
      if strict_eq vCtx n then (n, ks) :: cs' else (n, ks') :: context_put vCtx ks cs'
  end.

Definition get_invalidKeys (vCtx : value) : M (list InvalidKey) := fun st =>
  (Returned (context_keys vCtx (contexts st)), st).

Definition set_invalidKeys (vCtx : value) (ks : list InvalidKey) : M unit := fun st =>
  (Returned tt, {| heap := heap st; cached_selector := cached_selector st;
                   contexts := context_put vCtx ks (contexts st);
                   trace := trace st |}).

(** ** Objects in the store *)

Definition props_of (h : gmap loc obj) (l : loc) : obj := default [] (h !! l).

(** [v[k]] for a [v] that is neither [undefined] nor [null]: a property of an
    object, [undefined] on anything else. *)
Definition field (h : gmap loc obj) (v : value) (k : string) : value :=
  match v with
  | VObj l => default VUndef (prop_get k (props_of h l))
  | _ => VUndef
  end.

(** [v[k]], throwing on [undefined] and [null]. *)
Definition read_field (v : value) (k : string) : M value :=
  match v with
  | VUndef | VNull => throw TypeError
  | _ => h ← get_heap; mret (field h v k)
  end.

(** [v[k] = x]; assigning to a property of a primitive does nothing. *)
Definition write_field (v : value) (k : string) (x : value) : M unit :=
  match v with
  | VObj l => h ← get_heap; set_heap (<[l := prop_set k x (props_of h l)]> h)
  | VUndef | VNull => throw TypeError
  | _ => mret tt
  end.

(** [delete v[k]] *)
Definition delete_field (v : value) (k : string) : M unit :=
  match v with
  | VObj l => h ← get_heap; set_heap (<[l := prop_delete k (props_of h l)]> h)
  | VUndef | VNull => throw TypeError
  | _ => mret tt
  end.

(** A new object with the given properties. *)
Definition alloc (o : obj) : M value :=
  h ← get_heap;
  let l := fresh (dom h) in
  set_heap (<[l := o]> h);; mret (VObj l).

(** [_.clone(v)]: a shallow copy of an object (a function has no enumerable
    property to copy), the value itself otherwise. *)
Definition clone (v : value) : M value :=
  match v with
  | VObj l => h ← get_heap; alloc (props_of h l)
  | VFun _ | VLogger _ | VNotUnique _ _ _ => alloc []
  | _ => mret v
  end.

(** [args[i]] *)
Definition arg (i : nat) (args : list value) : value := nth i args VUndef.

(** [args[i] = v]; an index past the end extends the array. *)
Definition set_arg (i : nat) (v : value) (args : list value) : list value :=
  if (i <? length args)%nat then <[i := v]> args
  else args ++ replicate (i - length args) VUndef ++ [v].

(** What [insert] forwards when validation is skipped: the document and,
    if the third argument is one, the callback. *)
Definition insert_forwarded (args : list value) : list value :=
  arg 0 args :: (if is_function (arg 2 args) then [arg 2 args] else []).

(** ** The write path *)

(** Where [doValidate] stands after line 440: it has returned at line 355
    with the argument list, or it has validated and holds [isValid], the
    detached [id], [doc], [options], [callback], the name of the validation
    context and the argument list. *)
Inductive Pass : Type :=
| Skipped (args : list value)
| Checked (isValid : bool) (id doc options callback vCtx : value)
    (args : list value).

(** [true.toString()], the coercion [indexOf] applies to a boolean argument. *)
Definition bool_to_string (b : bool) : string := if b then "true" else "false".

Section WritePath.
(** The environment: [Meteor.isServer] (a client is what is not a server)
    and the result of [Meteor.userId()] where it exists. *)
Variable isServer : bool.
Variable meteorUserId : value.

(** The schema capability.  [schema_clean] stands for the in-place
    [schema.clean(doc, options)], [ctx_validate] for
    [namedContext(vCtx).validate(doc, options)], which reads the objects
    and, through the validation rule, the cached selector, and yields the
    verdict with the invalid keys it leaves in the context. *)
Variable allowsKey : string -> bool.
Variable schema_clean : CleanOptions -> value -> gmap loc obj -> gmap loc obj.
Variable ctx_validate :
  ValidateOptions -> value -> value -> gmap loc obj -> value -> bool * list InvalidKey.
Variable keyErrorMessage : list InvalidKey -> string -> string.
Variable messageForError : string -> string -> value -> string.

(** [new MongoObject(doc).getInfoForKey(fName)], [None] when it is falsy,
    otherwise its [value]. *)
Variable getInfoForKey : gmap loc obj -> value -> string -> option value.

(** The storage capability: what the underlying method returns, and the
    identifier [_makeNewID] produces. *)
Variable super_result : string -> list value -> value.
Variable newID : value.

Definition isClient : bool := negb isServer.

(** The test of line 479 on a truthy [error]. *)
Definition looks_like_duplicate_key (error : ErrorObj) : bool :=
  ((String.eqb (err_name error) "MongoError"
    && bool_decide (err_code error = Some 11001))
   || truthy (VNum (indexOf (err_message error)
                      (bool_to_string
                         (negb (strict_eq (VStr "MongoError: E11000") (VNum (-1))))))))
  && negb (Z.eqb (indexOf (err_message error) "c2_") (-1)).

(** Lines 480-489: the record pushed on the context's invalid keys. *)
Definition push_notUnique (doc vCtx : value) (error : ErrorObj) : M unit :=
  match split "c2_" (err_message error) with
  | _ :: piece :: _ =>
      let fName := hd "" (split " " piece) in
      h ← get_heap;
      let fVal := default VUndef (getInfoForKey h doc fName) in
      ks ← get_invalidKeys vCtx;
      set_invalidKeys vCtx
        (ks ++ [{| ik_name := fName; ik_type := "notUnique"; ik_value := fVal;
                   ik_message := messageForError "notUnique" fName fVal |}])
  | _ => throw TypeError
  end.

(** Calling [f(error, rest...)].  A caller's function is recorded; the
    logging callback is lines 368-371; the closure of
    [wrapCallbackForNotUnique] is lines 478-492. *)
Fixpoint invoke (f : value) (error : option ErrorObj) (rest : list value)
  : M unit :=
  match f with
  | VFun _ => log (EvCall f error rest)
  | VLogger type =>
      match error with
      | Some err => log (EvDebug (type +:+ " failed: ") err)
      | None => mret tt
      end
  | VNotUnique doc vCtx cb =>
      match error with
      | Some err =>
          if looks_like_duplicate_key err then push_notUnique doc vCtx err
          else mret tt
      | None => mret tt
      end;;
      invoke cb error rest
  | _ => throw TypeError
  end.

Definition wrapCallbackForNotUnique (doc vCtx cb : value) : value :=
  VNotUnique doc vCtx cb.

Section DoValidate.
Variable type : string.
Variable skipAutoValue : bool.
Variable userId' : value.
Variable isFromTrustedCode' : bool.

(** Lines 324-345: [doc], [options], [callback] and the new [args]. *)
Definition gather (args : list value)
  : M (value * value * value * list value) :=
  if String.eqb type "insert" then
    let doc := arg 0 args in
    let options := arg 1 args in
    let callback := arg 2 args in
    mret (doc, options, callback,
          if is_function options then [doc; options]
          else if is_function callback then [doc; callback]
          else [doc])
  else if String.eqb type "update" || String.eqb type "upsert" then
    set_selector (arg 0 args);;
    mret (arg 1 args, arg 2 args, arg 3 args, args)
  else throw (new_Error "invalid type argument").

(** Lines 374-380: the detached [id], [undefined] when none is. *)
Definition detach_id (doc : value) : M value :=
  if isServer then
    id ← read_field doc "_id";
    if truthy id && negb (allowsKey "_id")
    then delete_field doc "_id";; mret id
    else mret VUndef
  else mret VUndef.

(** The context object of lines 390-396 and 430-436; [options.upsert] is
    read when the object is built. *)
Definition operation_context (h : gmap loc obj) (options : value)
    (upsert : bool) : OperationContext :=
  {| isInsert := String.eqb type "insert";
     isUpdate := String.eqb type "update"
                 && negb (strict_eq (field h options "upsert") (VBool true));
     isUpsert := upsert;
     userId := userId';
     isFromTrustedCode := isFromTrustedCode' |}.

(** Lines 382-398. *)
Definition doClean (options : value) (upsert : bool) (docToClean : value)
    (getAutoValues filter autoConvert : bool) : M unit :=
  h ← get_heap;
  let opts := {| co_filter := filter; co_autoConvert := autoConvert;
                 co_getAutoValues := getAutoValues;
                 co_isModifier := negb (String.eqb type "insert");
                 co_extendAutoValueContext :=
                   operation_context h options upsert |} in
  log (EvClean docToClean opts);;
  set_heap (schema_clean opts docToClean h).

(** Lines 411-415, for a snapshot that is an object.  The modifier's
    [$set] is an object or absent. *)
Definition merge_selector (docToValidate : value) : M unit :=
  sel ← get_selector;
  match docToValidate with
  | VObj _ =>
      h ← get_heap;
      let set := field h docToValidate "$set" in
      merged ← clone sel;
      write_field docToValidate "$set" merged;;
      h' ← get_heap;
      match merged, set with
      | VObj lm, VObj ls =>
          set_heap (<[lm := extend (props_of h' lm) (props_of h' ls)]> h')
      | _, _ => mret tt
      end
  | VUndef | VNull => throw TypeError
  | _ => _ ← clone sel; mret tt
  end.

(** Lines 461-467: the error built from the context's invalid keys. *)
Definition validation_error (invalidKeys : list InvalidKey) : ErrorObj :=
  let message :=
    "failed validation" +:+
    match invalidKeys with
    | k :: _ =>
        let badKey := ik_name k in
        ": " +:+ badKey +:+ ": " +:+ keyErrorMessage invalidKeys badKey
    | [] => ""
    end in
  {| err_name := "Error"; err_code := None; err_message := message;
     err_invalidKeys := Some invalidKeys |}.

(** Lines 460-474. *)
Definition fail_validation (vCtx callback : value) : M (option (list value)) :=
  invalidKeys ← get_invalidKeys vCtx;
  let error := validation_error invalidKeys in
  if truthy callback
  then invoke callback (Some error) [VBool false];; mret None
  else throw error.

(** Lines 443-458. *)
Definition finish_valid (id doc options : value) (args : list value)
  : M (option (list value)) :=
  (if truthy id then write_field doc "_id" id else mret tt);;
  h ← get_heap;
  let vCtx := field h options "validationContext" in
  let args := if String.eqb type "insert" then set_arg 0 doc args
              else set_arg 1 doc args in
  let last := (length args - 1)%nat in
  let args := if is_function (arg last args)
              then set_arg last (wrapCallbackForNotUnique doc vCtx (arg last args)) args
              else args in
  mret (Some args).

(** Lines 318-440: everything up to and including the validation and the
    clearing of the cached selector.  After line 352 [options] is only
    read, so the empty object that replaces a missing [options] is not
    allocated: reading a property of a non-object gives [undefined]. *)
Definition validation_pass (args : list value) : M Pass :=
  if bool_decide (args = []) then
    throw (new_Error (type +:+ " requires an argument"))
  else
    set_selector VNull;;
    '(doc, options, callback, args) ← gather args;
    let '(callback, options) :=
      if negb (truthy callback) && is_function options
      then (options, VUndef) else (callback, options) in
    h ← get_heap;
    if strict_eq (field h options "validate") (VBool false) then
      mret (Skipped args)
    else
      let upsert :=
        String.eqb type "upsert"
        || (String.eqb type "update"
            && strict_eq (field h options "upsert") (VBool true)) in
      let callback :=
        if isClient && negb (truthy callback) then VLogger type else callback in
      id ← detach_id doc;
      doClean options upsert doc (isServer && negb skipAutoValue) true true;;
      docToValidate ← clone doc;
      sel ← get_selector;
      (if isServer && upsert && isObject sel
       then merge_selector docToValidate else mret tt);;
      (if isClient then doClean options upsert docToValidate true false false
       else mret tt);;
      h' ← get_heap;
      let vCtx := field h' options "validationContext" in
      let vopts := {| vo_modifier := String.eqb type "update"
                                     || String.eqb type "upsert";
                      vo_upsert := upsert;
                      vo_extendedCustomContext :=
                        operation_context h' options upsert |} in
      log (EvValidate vCtx docToValidate vopts);;
      sel' ← get_selector;
      let '(isValid, invalidKeys) := ctx_validate vopts vCtx docToValidate h' sel' in
      set_invalidKeys vCtx invalidKeys;;
      set_selector VNull;;
      mret (Checked isValid id doc options callback vCtx args).

(** What holds of a pass that validated: the cached selector is cleared and
    the context holds the invalid keys of the verdict. *)
Definition validated (pass : Pass) (st : State) : Prop :=
  match pass with
  | Skipped _ => True
  | Checked isValid _ _ _ _ vCtx _ =>
      cached_selector st = VNull
      /\ exists vopts docToValidate h sel,
           ctx_validate vopts vCtx docToValidate h sel
           = (isValid, context_keys vCtx (contexts st))
  end.

(** [doValidate], lines 313-475.  The result is the argument list to
    forward, or [None] for [undefined]. *)
Definition doValidate (args : list value) : M (option (list value)) :=
  pass ← validation_pass args;
  match pass with
  | Skipped args => mret (Some args)
  | Checked isValid id doc options callback vCtx args =>
      if isValid then finish_valid id doc options args
      else fail_validation vCtx callback
  end.
End DoValidate.

(** The wrapped [insert], [update] and [upsert], lines 288-307, on a
    collection with ([has_c2]) or without an attached schema. *)
Definition write_method (has_c2 : bool) (methodName : string)
    (args : list value) : M value :=
  let forward (args : list value) : M value :=
    log (EvSuper methodName args);; mret (super_result methodName args) in
  if has_c2 then
    let uid := if isClient && truthy meteorUserId then meteorUserId else VNull in
    r ← doValidate methodName false uid isServer args;
    match r with
    | None =>
        if String.eqb methodName "insert"
        then log EvMakeNewID;; mret newID
        else mret VUndef
    | Some args' => forward args'
    end
  else forward args.
End WritePath.

(** ** The read-side transform of the constructor (lines 32-44)

    A document delivered through the transform is a property list; each
    virtual field is a function of the document as it stands when the field
    is computed. *)
Definition add_virtual_fields (virtualFields : list (string * (obj -> value)))
    (doc : obj) : obj :=
  fold_left (fun d fv => prop_set (fst fv) (snd fv d) d) virtualFields doc.


(** ** The deny hooks (lines 177-259) *)

(** The options of the two [ss.clean] calls of the first pair of hooks,
    which leave [filter], [autoConvert] and [getAutoValues] to the schema's
    defaults. *)
Record HookCleanOptions : Type := {
  hc_isModifier : bool;
  hc_extendAutoValueContext : OperationContext
}.

Definition get_trace : M (list Event) := fun st => (Returned (trace st), st).

(** Whether [f] is called with an error among [evs]. *)
Definition called_with_error (f : value) (evs : list Event) : bool :=
  existsb (fun e => match e with
                    | EvCall g (Some _) _ => bool_decide (g = f)
                    | _ => false
                    end) evs.

Section DenyHooks.
Variable isServer : bool.
Variable allowsKey : string -> bool.
Variable schema_clean : CleanOptions -> value -> gmap loc obj -> gmap loc obj.
Variable ctx_validate :
  ValidateOptions -> value -> value -> gmap loc obj -> value -> bool * list InvalidKey.
Variable keyErrorMessage : list InvalidKey -> string -> string.
Variable messageForError : string -> string -> value -> string.
Variable getInfoForKey : gmap loc obj -> value -> string -> option value.

(** [ss.clean(doc, options)] with the default cleaning options, in place. *)
Variable clean_with_defaults :
  HookCleanOptions -> value -> gmap loc obj -> gmap loc obj.

(** The first [insert] hook, lines 181-208. *)
Definition deny_insert_clean (uid doc : value) : M bool :=
  id ← detach_id isServer allowsKey doc;
  h ← get_heap;
  set_heap
    (clean_with_defaults
       {| hc_isModifier := false;
          hc_extendAutoValueContext :=
            {| isInsert := true; isUpdate := false; isUpsert := false;
               userId := uid; isFromTrustedCode := false |} |}
       doc h);;
  (if truthy id then write_field doc "_id" id else mret tt);;
  mret false.

(** The first [update] hook, lines 209-224. *)
Definition deny_update_clean (uid modifier : value) : M bool :=
  h ← get_heap;
  set_heap
    (clean_with_defaults
       {| hc_isModifier := true;
          hc_extendAutoValueContext :=
            {| isInsert := false; isUpdate := true; isUpsert := false;
               userId := uid; isFromTrustedCode := false |} |}
       modifier h);;
  mret false.

(** The second pair of hooks, lines 236-257: [doValidate] is run with a new
    empty options object and a callback that sets [ret] when it is given an
    error; [cb] names that callback, and [ret] is read off the calls made
    during the run. *)
Definition deny_validate (type : string) (uid : value)
    (before_options : list value) (cb : nat) : M bool :=
  options ← alloc [];
  before ← get_trace;
  _ ← doValidate isServer allowsKey schema_clean ctx_validate keyErrorMessage
        messageForError getInfoForKey type true uid false
        (before_options ++ [options; VFun cb]);
  after ← get_trace;
  mret (called_with_error (VFun cb) (skipn (length before) after)).

Definition deny_insert_validate (uid doc : value) (cb : nat) : M bool :=
  deny_validate "insert" uid [doc] cb.

Definition deny_update_validate (uid modifier : value) (cb : nat) : M bool :=
  deny_validate "update" uid [VNull; modifier] cb.
End DenyHooks.

(** ** What [doValidate] makes of its arguments

    The values lines 324-372 compute from [type] and [args], as functions of
    them, for stating what a run forwards and calls. *)

(** [doc]: the first argument of an insert, the second of an update. *)
Definition pass_doc (type : string) (args : list value) : value :=
  if String.eqb type "insert" then arg 0 args else arg 1 args.

(** [args] after line 336. *)
Definition pass_args (type : string) (args : list value) : list value :=
  if String.eqb type "insert" then
    if is_function (arg 1 args) then [arg 0 args; arg 1 args]
    else if is_function (arg 2 args) then [arg 0 args; arg 2 args]
    else [arg 0 args]
  else args.

(** Whether line 348 takes the function in the options position for the
    callback. *)
Definition pass_swap (type : string) (args : list value) : bool :=
  if String.eqb type "insert"
  then negb (truthy (arg 2 args)) && is_function (arg 1 args)
  else negb (truthy (arg 3 args)) && is_function (arg 2 args).

(** [options] after line 351 ([undefined] standing for the empty object). *)
Definition pass_options (type : string) (args : list value) : value :=
  if pass_swap type args then VUndef
  else if String.eqb type "insert" then arg 1 args else arg 2 args.

(** [callback] after line 351: the callback the caller supplied. *)
Definition pass_supplied_callback (type : string) (args : list value) : value :=
  if pass_swap type args
  then (if String.eqb type "insert" then arg 1 args else arg 2 args)
  else (if String.eqb type "insert" then arg 2 args else arg 3 args).

(** [callback] after line 372. *)
Definition pass_callback (isServer : bool) (type : string) (args : list value)
  : value :=
  let c := pass_supplied_callback type args in
  if isClient isServer && negb (truthy c) then VLogger type else c.

(** Lines 447-457 on the argument list: [doc] written back and a function
    in last position wrapped. *)
Definition forwarded_args (type : string) (doc vCtx : value)
    (args : list value) : list value :=
  let args := if String.eqb type "insert" then set_arg 0 doc args
              else set_arg 1 doc args in
  let last := (length args - 1)%nat in
  if is_function (arg last args)
  then set_arg last (wrapCallbackForNotUnique doc vCtx (arg last args)) args
  else args.

(** [id] after line 380, from the objects as they are on entry. *)
Definition detached (isServer : bool) (allowsKey : string -> bool)
    (h : gmap loc obj) (doc : value) : value :=
  if isServer && truthy (field h doc "_id") && negb (allowsKey "_id")
  then field h doc "_id" else VUndef.



(** Calls that are not calls of a function value. *)
Definition not_function_call (e : Event) : Prop :=
  match e with
  | EvCall _ _ _ => False
  | _ => True
  end.

(** Cleaning calls that do not ask for auto-values. *)
Definition without_auto_values (e : Event) : Prop :=
  match e with
  | EvClean _ opts => co_getAutoValues opts = false
  | _ => True
  end.

(** ** Reasoning about computations *)

(** Every run of [m] relates the state it starts in to the state it ends
    in, whether it returns or throws. *)
Definition stable (R : State -> State -> Prop) {A : Type} (m : M A) : Prop :=
  forall st r st', m st = (r, st') -> R st st'.

(** Every run of [m] that returns does so with [Q]. *)
Definition ensures {A : Type} (Q : A -> State -> Prop) (m : M A) : Prop :=
  forall st a st', m st = (Returned a, st') -> Q a st'.

(** The later state has the calls of the earlier one and then some, all
    of them in [P]. *)
Definition appends (P : Event -> Prop) (st st' : State) : Prop :=
  exists evs, trace st' = (trace st ++ evs)%list /\ Forall P evs.

Definition same_selector (st st' : State) : Prop :=
  cached_selector st' = cached_selector st.

(** A call of the underlying storage method. *)
Definition is_storage_call (e : Event) : Prop :=
  match e with
  | EvSuper _ _ => True
  | _ => False
  end.

Definition not_storage_call (e : Event) : Prop := ~ is_storage_call e.

(** [st] after one more call. *)
Definition logged (st : State) (e : Event) : State :=
  {| heap := heap st; cached_selector := cached_selector st;
     contexts := contexts st; trace := trace st ++ [e] |}.

(** ** Sample inputs *)

Definition email_definition : FieldDef :=
  {| def_index := Some (VBool true); def_unique := Some true;
     def_denyInsert := None; def_denyUpdate := None; def_optional := Some true |}.

Definition email_index_options : IndexOptions :=
  {| io_background := true; io_name := "c2_email"; io_unique := true;
     io_sparse := true |}.

(** A field declared unique, with no index. *)
Definition unique_definition : FieldDef :=
  {| def_index := None; def_unique := Some true; def_denyInsert := None;
     def_denyUpdate := None; def_optional := None |}.

Definition denyUpdate_definition : FieldDef :=
  {| def_index := None; def_unique := Some true; def_denyInsert := None;
     def_denyUpdate := Some true; def_optional := None |}.

(** One stored counter at 1; two stored tickets with codes A and B. *)
Definition counters : list document :=
  [[("_id", VStr "a"); ("n", VNum 1)]].

Definition tickets : list document :=
  [[("_id", VStr "t1"); ("code", VStr "A")];
   [("_id", VStr "t2"); ("code", VStr "B")]].

(** Three tickets, two of them open, one already holding code X. *)
Definition open_tickets : list document :=
  [[("_id", VStr "t1"); ("status", VStr "open"); ("code", VStr "A")];
   [("_id", VStr "t2"); ("status", VStr "open"); ("code", VStr "B")];
   [("_id", VStr "t3"); ("status", VStr "closed"); ("code", VStr "X")]].

(** A schema that does not declare [_id], whose cleaning changes nothing
    and whose validation requires a [name]. *)
Definition no_key_allowed : string -> bool := fun _ => false.

Definition clean_nothing
  : CleanOptions -> value -> gmap loc obj -> gmap loc obj :=
  fun _ _ h => h.

Definition name_missing : InvalidKey :=
  {| ik_name := "name"; ik_type := "required"; ik_value := VUndef;
     ik_message := "Name is required" |}.

Definition name_required
  : ValidateOptions -> value -> value -> gmap loc obj -> value
    -> bool * list InvalidKey :=
  fun _ _ d h _ =>
    if truthy (field h d "name") then (true, []) else (false, [name_missing]).

Definition first_message (ks : list InvalidKey) (key : string) : string :=
  match List.find (fun k => String.eqb (ik_name k) key) ks with
  | Some k => ik_message k
  | None => ""
  end.

Definition must_be_unique (kind key : string) (val : value) : string :=
  key +:+ " must be unique".

Definition top_level_value (h : gmap loc obj) (doc : value) (key : string)
  : option value :=
  match doc with
  | VObj l => prop_get key (props_of h l)
  | _ => None
  end.

Definition stored_id (methodName : string) (args : list value) : value :=
  VStr "stored".

(** Objects 1 and 6 are documents with an [_id], without and with a
    [name]; 2 is the options [{validate: false}]; 3 is a selector and 4 a
    modifier whose [$set] is 5. *)
Definition sample_state : State :=
  {| heap := list_to_map
               [(1%positive, [("_id", VStr "abc"); ("age", VNum 5)]);
                (2%positive, [("validate", VBool false)]);
                (3%positive, [("status", VStr "open")]);
                (4%positive, [("$set", VObj 5)]);
                (5%positive, [("code", VStr "X")]);
                (6%positive, [("_id", VStr "abc"); ("name", VStr "Ann")])];
     cached_selector := VNull;
     contexts := [];
     trace := [] |}.

Definition sample_doValidate (isServer : bool)
  : string -> bool -> value -> bool -> list value -> M (option (list value)) :=
  doValidate isServer no_key_allowed clean_nothing name_required first_message
    must_be_unique top_level_value.

Definition sample_validation_pass (isServer : bool)
  : string -> bool -> value -> bool -> list value -> M Pass :=
  validation_pass isServer no_key_allowed clean_nothing name_required.

Definition sample_write_method (isServer : bool)
  : bool -> string -> list value -> M value :=
  write_method isServer VUndef no_key_allowed clean_nothing name_required
    first_message must_be_unique top_level_value stored_id (VStr "fresh-id").

(** A storage error that is not a duplicate-key error but names a
    collection whose name starts with the index prefix. *)
Definition not_master : ErrorObj :=
  {| err_name := "MongoError"; err_code := Some 10107;
     err_message := "not master: cannot write to c2_items now";
     err_invalidKeys := None |}.

(** A duplicate-key error on the index of the field [email]. *)
Definition duplicate_email : ErrorObj :=
  {| err_name := "MongoError"; err_code := Some 11000;
     err_message :=
       "MongoError: E11000 duplicate key error index: app.users.$c2_email  dup key";
     err_invalidKeys := None |}.

(** Per-document virtual fields: a display name and its length-free echo. *)
Definition full_name (doc : obj) : value :=
  match prop_get "first" doc, prop_get "last" doc with
  | Some (VStr a), Some (VStr b) => VStr (a +:+ " " +:+ b)
  | _, _ => VUndef
  end.

Definition sample_virtualFields : list (string * (obj -> value)) :=
  [("fullName", full_name);
   ("label", fun doc => default VNull (prop_get "fullName" doc))].

Definition ann : obj := [("first", VStr "Ann"); ("last", VStr "Lee")].

(** The sample schema's hooks and callbacks. *)
Definition sample_deny_validate
  : string -> value -> list value -> nat -> M bool :=
  deny_validate true no_key_allowed clean_nothing name_required first_message
    must_be_unique top_level_value.

Definition sample_invoke : value -> option ErrorObj -> list value -> M unit :=
  invoke must_be_unique top_level_value.

(** The sample objects while an upsert through selector 3 is validated. *)
Definition upsert_state : State :=
  {| heap := heap sample_state; cached_selector := VObj 3; contexts := [];
     trace := [] |}.

(** A schema with an auto-value: cleaning a modifier with auto-values on
    writes [updatedAt] into the modifier's [$set] object, in place; its
    validation accepts everything. *)
Definition stamp_updatedAt
  : CleanOptions -> value -> gmap loc obj -> gmap loc obj :=
  fun opts target h =>
    if co_getAutoValues opts && co_isModifier opts then
      match field h target "$set" with
      | VObj ls => <[ls := prop_set "updatedAt" (VNum 1700000000) (props_of h ls)]> h
      | _ => h
      end
    else h.

Definition accept_all
  : ValidateOptions -> value -> value -> gmap loc obj -> value
    -> bool * list InvalidKey :=
  fun _ _ _ _ _ => (true, []).

Definition stamping_doValidate (isServer : bool)
  : string -> bool -> value -> bool -> list value -> M (option (list value)) :=
  doValidate isServer no_key_allowed stamp_updatedAt accept_all first_message
    must_be_unique top_level_value.

(** A unique, optional field with a geospatial index. *)
Definition geo_definition : FieldDef :=
  {| def_index := Some (VStr "2d"); def_unique := Some true;
     def_denyInsert := None; def_denyUpdate := None;
     def_optional := Some true |}.

(** Two counters: one at 5, one at 1; and one at 5 next to one at 6. *)
Definition counters_5_1 : list document :=
  [[("_id", VStr "a"); ("n", VNum 5)]; [("_id", VStr "b"); ("n", VNum 1)]].

Definition counters_5_6 : list document :=
  [[("_id", VStr "a"); ("n", VNum 5)]; [("_id", VStr "b"); ("n", VNum 6)]].

(** * Properties *)

(** ** Index set-up *)

(** C10: an index-ensure call is scheduled, on the server only, for a field
    whose index spec is not [false]; its direction is 1 for a spec of [true]
    and the spec itself otherwise.  It passes [unique: true] exactly when
    the definition sets [unique] and the resolved direction is 1 or -1, that
    is, when the spec is [true], 1 or -1; it passes [sparse: true] exactly
    when in addition the field is optional; for any other index spec value
    [unique] and [sparse] are false. *)
Theorem ensure_index_flags (isServer : bool) (fieldName : string)
    (definition : FieldDef) (f : string) (direction : value) (opts : IndexOptions) :
  ensure_field_index isServer fieldName definition = Some (EnsureIndex f direction opts) ->
  (def_index definition = Some (VBool true) -> direction = VNum 1)
  /\ (io_unique opts = true <->
      def_unique definition = Some true
      /\ (direction = VNum 1 \/ direction = VNum (-1)))
  /\ (io_sparse opts = true <->
      def_optional definition = Some true /\ io_unique opts = true)
  /\ io_name opts = "c2_" +:+ fieldName
  /\ isServer = true /\ f = fieldName /\ io_background opts = true
  /\ exists indexValue,
       def_index definition = Some indexValue
       /\ indexValue <> VBool false
       /\ (indexValue <> VBool true -> direction = indexValue)
       /\ (io_unique opts = true <->
           def_unique definition = Some true
           /\ (indexValue = VBool true \/ indexValue = VNum 1
               \/ indexValue = VNum (-1)))
       /\ (indexValue <> VBool true -> indexValue <> VNum 1 ->
           indexValue <> VNum (-1) ->
           io_unique opts = false /\ io_sparse opts = false).
Proof.
  unfold ensure_field_index.
  destruct (def_index definition) as [iv|]; [|discriminate].
  destruct isServer; [|discriminate].
  destruct (negb _) eqn:Hdrop; intros H; inversion H; subst; clear H; simpl.
  apply negb_true_iff in Hdrop.
  unfold resolve_index, strict_eq in Hdrop |- *.
  assert (Hiv : iv <> VBool false).
  { intros ->. simpl in Hdrop. discriminate Hdrop. }
  clear Hdrop.
  unfold index_sparse, index_unique, flag, strict_eq.
  destruct (bool_decide (iv = VBool true)) eqn:Htrue.
  - apply bool_decide_eq_true in Htrue. subst iv. simpl.
    rewrite !andb_true_r.
    split; [reflexivity|].
    split.
    { destruct (def_unique definition) as [[]|]; simpl; intuition congruence. }
    split.
    { destruct (def_unique definition) as [[]|],
               (def_optional definition) as [[]|];
        simpl; intuition congruence. }
    do 4 (split; [reflexivity|]).
    exists (VBool true).
    split; [reflexivity|]. split; [exact Hiv|].
    split; [intros Hne; contradict Hne; reflexivity|].
    split.
    { destruct (def_unique definition) as [[]|]; simpl; intuition congruence. }
    intros Hne; contradict Hne; reflexivity.
  - apply bool_decide_eq_false in Htrue.
    split; [intros [= ->]; contradiction|].
    split.
    { rewrite andb_true_iff, orb_true_iff, !bool_decide_eq_true.
      destruct (def_unique definition) as [[]|]; simpl; intuition congruence. }
    split.
    { rewrite !andb_true_iff, orb_true_iff, !bool_decide_eq_true.
      destruct (def_unique definition) as [[]|],
               (def_optional definition) as [[]|];
        simpl; intuition congruence. }
    do 4 (split; [reflexivity|]).
    exists iv.
    split; [reflexivity|]. split; [exact Hiv|]. split; [reflexivity|].
    split.
    { rewrite andb_true_iff, orb_true_iff, !bool_decide_eq_true.
      destruct (def_unique definition) as [[]|]; simpl; intuition congruence. }
    intros _ H1 H2.
    rewrite (bool_decide_eq_false_2 _ H1), (bool_decide_eq_false_2 _ H2). simpl.
    rewrite !andb_false_r. split; reflexivity.
Qed.

Lemma ensure_index_flags_witness :
  ensure_field_index true "email" email_definition
  = Some (EnsureIndex "email" (VNum 1) email_index_options)
  /\ def_index email_definition = Some (VBool true)
  /\ (io_unique email_index_options = true <->
      def_unique email_definition = Some true
      /\ (VNum 1 = VNum 1 \/ VNum 1 = VNum (-1)))
  /\ (io_sparse email_index_options = true <->
      def_optional email_definition = Some true
      /\ io_unique email_index_options = true).
Proof.
  split; [reflexivity|]. split; [reflexivity|].
  destruct (ensure_index_flags true "email" email_definition "email" (VNum 1)
              email_index_options eq_refl) as (_ & Hunique & Hsparse & _).
  split; [exact Hunique | exact Hsparse].
Defined.

(** A geospatial index on a unique, optional field is ensured with the spec
    as its direction and neither [unique] nor [sparse]. *)
Lemma geo_index_not_unique :
  ensure_field_index true "place" geo_definition
  = Some (EnsureIndex "place" (VStr "2d")
            {| io_background := true; io_name := "c2_place";
               io_unique := false; io_sparse := false |}).
Proof. reflexivity. Qed.

(** ** The validation rule *)

Lemma op_is_eq (op : option string) (name : string) :
  op_is op name = true <-> op = Some name.
Proof.
  destruct op as [s|]; simpl; [|split; discriminate].
  rewrite String.eqb_eq. split; congruence.
Qed.

Lemma strict_eq_true (a b : value) : strict_eq a b = true <-> a = b.
Proof. apply bool_decide_eq_true. Qed.

Lemma strict_eq_false (a b : value) : strict_eq a b = false <-> a <> b.
Proof. apply bool_decide_eq_false. Qed.

(** C6: on a field that sets [denyUpdate], a value assigned through a
    modifier operator is rejected with [updateNotAllowed], except [$set] of
    [undefined], which the rule accepts; so [$set] of a defined value and
    [$inc] of any value are rejected. *)
Theorem denyUpdate_rule (isServer skip : bool) (sel : selector)
    (find_count : query -> nat) (findOne : query -> bool)
    (def : FieldDef) (val : value) (op : option string) (key : string) :
  def_denyUpdate def = Some true ->
  op_truthy op = true ->
  let verdict := validator isServer skip sel find_count findOne def val op key in
  (verdict = Invalid "updateNotAllowed" <-> ~ (op = Some "$set" /\ val = VUndef))
  /\ (op = Some "$set" -> val = VUndef -> verdict = Valid)
  /\ (op = Some "$set" -> val <> VUndef -> verdict = Invalid "updateNotAllowed")
  /\ (op = Some "$inc" -> verdict = Invalid "updateNotAllowed").
Proof.
  intros Hdeny Hop. unfold validator. rewrite Hdeny, Hop. simpl.
  rewrite andb_false_r. simpl.
  destruct (op_is op "$set") eqn:Hset; simpl.
  - apply op_is_eq in Hset. subst op.
    destruct (strict_eq val VUndef) eqn:Hval; simpl.
    + apply strict_eq_true in Hval. subst val.
      replace (if flag (def_unique def) && negb skip then Valid else Valid)
        with Valid by (destruct (_ && _); reflexivity).
      split; [|split; [|split]]; try congruence.
      split; [discriminate | intros H; contradict H; auto].
    + apply strict_eq_false in Hval.
      split; [|split; [|split]]; try tauto; try congruence.
  - assert (Hne : op <> Some "$set").
    { intros H. apply op_is_eq in H. congruence. }
    split; [|split; [|split]]; try tauto; try congruence.
Qed.

Lemma denyUpdate_rule_witness :
  validator_on true false SelNone [] denyUpdate_definition (VNum 1) (Some "$inc") "n"
  = Invalid "updateNotAllowed".
Proof.
  apply (denyUpdate_rule true false SelNone (count_in []) (found_in [])
           denyUpdate_definition (VNum 1) (Some "$inc") "n");
    reflexivity.
Defined.

(** The uniqueness part is reached when neither policy rule fires, the field
    is unique, the value is set and the storage index is not relied on. *)
Lemma validator_unique_check (isServer : bool) (sel : selector)
    (find_count : query -> nat) (findOne : query -> bool)
    (def : FieldDef) (val : value) (op : option string) (key : string) :
  def_unique def = Some true ->
  val <> VUndef -> val <> VNull ->
  isServer && has_usable_index def = false ->
  op_truthy op = true ->
  validator isServer false sel find_count findOne def val op key
  = if flag (def_denyUpdate def) then Invalid "updateNotAllowed"
    else unique_check sel find_count findOne val op key.
Proof.
  intros Hu Hv1 Hv2 Hidx Hop. unfold validator.
  apply strict_eq_false in Hv1, Hv2.
  rewrite Hu, Hv1, Hv2, Hidx, Hop. simpl. rewrite andb_false_r. simpl.
  destruct (flag (def_denyUpdate def)); simpl; [|reflexivity].
  destruct (op_is op "$set"); reflexivity.
Qed.

(** A [$inc] on a unique field with a set value and no usable server-side
    index leaves the counting branch of line 148 and falls into the branch
    written for inserts: unless [denyUpdate] rejects it first, the verdict is
    [notUnique] exactly when the lookup finds a document whose field equals
    the given increment; neither the cached selector nor a count is used. *)
Lemma inc_takes_insert_branch (isServer : bool) (sel : selector)
    (find_count : query -> nat) (findOne : query -> bool)
    (def : FieldDef) (val : value) (key : string) :
  def_unique def = Some true ->
  val <> VUndef -> val <> VNull ->
  isServer && has_usable_index def = false ->
  validator isServer false sel find_count findOne def val (Some "$inc") key
  = if flag (def_denyUpdate def) then Invalid "updateNotAllowed"
    else if findOne [(key, CEq val)] then Invalid "notUnique" else Valid.
Proof.
  intros Hu Hv1 Hv2 Hidx.
  rewrite validator_unique_check by (auto; reflexivity).
  reflexivity.
Qed.

(** C2 at failing input: on a unique field [n] with no index, the update
    [{$inc: {n: 1}}] of the document [a], whose counter is at 5, is reported
    as [notUnique] because another document has its counter at 1, the
    increment itself, although the incremented value 6 is held by no
    document: the uniqueness check is not bypassed, on the server and on
    the client, with or without a cached selector.  The same update next to
    a document whose counter is at 6 is accepted. *)
Theorem inc_compared_with_increment :
  def_unique unique_definition = Some true
  /\ has_usable_index unique_definition = false
  /\ VNum 1 <> VUndef /\ VNum 1 <> VNull
  /\ countMatchingValue counters_5_1 "n" (VNum 6) = 0%nat
  /\ validator_on true false (SelObj [("_id", CEq (VStr "a"))]) counters_5_1
       unique_definition (VNum 1) (Some "$inc") "n"
     = Invalid "notUnique"
  /\ validator_on false false SelNone counters_5_1
       unique_definition (VNum 1) (Some "$inc") "n"
     = Invalid "notUnique"
  /\ countMatchingValue counters_5_6 "n" (VNum 6) = 1%nat
  /\ validator_on true false (SelObj [("_id", CEq (VStr "a"))]) counters_5_6
       unique_definition (VNum 1) (Some "$inc") "n"
     = Valid.
Proof. repeat split; discriminate. Qed.

(** The equality query counts the documents holding the value. *)
Lemma count_in_test (coll : list document) (key : string) (val : value) :
  count_in coll [(key, CEq val)] = countMatchingValue coll key val.
Proof.
  unfold count_in, countMatchingValue. f_equal.
  apply filter_ext. intros d. simpl. apply andb_true_r.
Qed.

(** On a selector that does not mention [key], adding [{$ne: val}] for it
    selects the matched documents whose [key] differs from [val]. *)
Lemma matches_prop_set_fresh (q : query) (key : string) (val : value)
    (d : document) :
  prop_get key q = None ->
  matches (prop_set key (CNe val) q) d
  = matches q d && negb (bool_decide (prop_get key d = Some val)).
Proof.
  induction q as [|[k c] q IH]; simpl; intros Hfresh.
  - apply andb_true_r.
  - destruct (String.eqb key k); [discriminate|]. simpl.
    rewrite IH by assumption. apply andb_assoc.
Qed.

Lemma count_in_will_adopt (coll : list document) (q : query) (key : string)
    (val : value) :
  prop_get key q = None ->
  count_in coll (prop_set key (CNe val) q) = countWillAdopt coll q key val.
Proof.
  intros Hfresh. unfold count_in, countWillAdopt. f_equal.
  apply filter_ext. intros d. apply matches_prop_set_fresh, Hfresh.
Qed.

(** C5, as the code has it: for an operator other than [$inc] on a unique
    field that is not [denyUpdate], with a set value, no usable server-side
    index and a cached selector, the rule reports [notUnique] exactly when
    the documents holding the value plus the documents matched by the
    selector with its condition on this field replaced by "differs from the
    value" number more than one; when the selector has no condition on the
    field the second count is the matched documents whose value differs;
    without a cached selector the rule reports no violation. *)
Theorem update_count_rule (isServer : bool) (sel : selector)
    (coll : list document) (def : FieldDef) (val : value) (op : string)
    (key : string) :
  def_unique def = Some true ->
  flag (def_denyUpdate def) = false ->
  val <> VUndef -> val <> VNull ->
  isServer && has_usable_index def = false ->
  op <> "" -> op <> "$inc" ->
  let verdict := validator_on isServer false sel coll def val (Some op) key in
  (forall q, selector_query sel = Some q ->
     (verdict = Invalid "notUnique" <->
      (countMatchingValue coll key val
       + count_in coll (prop_set key (CNe val) q) > 1)%nat)
     /\ (verdict <> Invalid "notUnique" -> verdict = Valid)
     /\ (prop_get key q = None ->
         count_in coll (prop_set key (CNe val) q) = countWillAdopt coll q key val))
  /\ (selector_query sel = None -> verdict = Valid).
Proof.
  intros Hu Hd Hv1 Hv2 Hidx Hop Hinc verdict. subst verdict.
  unfold validator_on.
  assert (Hop' : op_truthy (Some op) = true).
  { simpl. apply negb_true_iff, String.eqb_neq, Hop. }
  rewrite validator_unique_check by assumption. rewrite Hd.
  unfold unique_check. rewrite Hop'.
  assert (Hinc' : op_is (Some op) "$inc" = false) by (apply String.eqb_neq, Hinc).
  rewrite Hinc'. simpl.
  assert (Hcheck : forall q,
    (count_check (count_in coll) val key q = Invalid "notUnique" <->
     (countMatchingValue coll key val
      + count_in coll (prop_set key (CNe val) q) > 1)%nat)
    /\ (count_check (count_in coll) val key q <> Invalid "notUnique" ->
        count_check (count_in coll) val key q = Valid)).
  { intros q. unfold count_check. rewrite count_in_test.
    destruct (Nat.ltb_spec 1
                (countMatchingValue coll key val
                 + count_in coll (prop_set key (CNe val) q))).
    - split; [split; [intros _; lia | reflexivity] | congruence].
    - split; [split; [discriminate | lia] | reflexivity]. }
  split.
  - intros q Hq. destruct sel as [|s|q0]; simpl in Hq.
    + discriminate.
    + destruct (String.eqb s ""); [discriminate|]. injection Hq as <-.
      destruct (Hcheck [("_id", CEq (VStr s))]) as [H1 H2].
      split; [exact H1 | split; [exact H2 | apply count_in_will_adopt]].
    + injection Hq as <-. destruct (Hcheck q0) as [H1 H2].
      split; [exact H1 | split; [exact H2 | apply count_in_will_adopt]].
  - intros Hq. destruct sel as [|s|q0]; simpl in Hq.
    + reflexivity.
    + destruct (String.eqb s ""); [reflexivity | discriminate].
    + discriminate.
Qed.

Lemma update_count_rule_witness :
  validator_on false false (SelObj [("status", CEq (VStr "open"))]) open_tickets
    unique_definition (VStr "X") (Some "$set") "code"
  = Invalid "notUnique".
Proof.
  destruct (update_count_rule false (SelObj [("status", CEq (VStr "open"))])
              open_tickets unique_definition (VStr "X") "$set" "code"
              eq_refl eq_refl
              ltac:(discriminate) ltac:(discriminate) eq_refl
              ltac:(discriminate) ltac:(discriminate))
    as [H _].
  destruct (H [("status", CEq (VStr "open"))] eq_refl) as [Hiff _].
  apply Hiff. cbv. repeat constructor.
Defined.

(** C5 fails as stated.  With a selector that already constrains the field,
    the rule reports [notUnique] although no document holds the value and
    only one matched document would adopt it; with [$inc] the sum is not
    consulted; on a [denyUpdate] field a sum above one is reported as
    [updateNotAllowed]. *)
Lemma update_count_rule_as_stated_fails :
  (validator_on false false (SelObj [("code", CEq (VStr "A"))]) tickets
     unique_definition (VStr "X") (Some "$set") "code" = Invalid "notUnique"
   /\ (countMatchingValue tickets "code" (VStr "X")
       + countWillAdopt tickets [("code", CEq (VStr "A"))] "code" (VStr "X")
       = 1)%nat)
  /\ (validator_on false false (SelObj [("_id", CEq (VStr "a"))]) counters
        unique_definition (VNum 1) (Some "$inc") "n" = Invalid "notUnique"
      /\ (countMatchingValue counters "n" (VNum 1)
          + countWillAdopt counters [("_id", CEq (VStr "a"))] "n" (VNum 1)
          = 1)%nat)
  /\ (validator_on false false (SelObj [("status", CEq (VStr "open"))])
        open_tickets denyUpdate_definition (VStr "X") (Some "$set") "code"
      = Invalid "updateNotAllowed"
      /\ (countMatchingValue open_tickets "code" (VStr "X")
          + countWillAdopt open_tickets [("status", CEq (VStr "open"))] "code"
              (VStr "X")
          = 3)%nat).
Proof. repeat split. Qed.

(** ** The write path *)

Ltac run :=
  unfold mbind, M_bind, mret, M_ret, throw, get_heap, set_heap, get_selector,
    set_selector, log, get_invalidKeys, set_invalidKeys; simpl.

Lemma field_bool_object (h : gmap loc obj) (v : value) (k : string) (b : bool) :
  field h v k = VBool b -> exists l, v = VObj l.
Proof. destruct v; simpl; try discriminate. eauto. Qed.

Lemma arg_nil (i : nat) : arg i [] = VUndef.
Proof. destruct i; reflexivity. Qed.

(** *** Relating the states of a run *)

#[global] Instance appends_preorder (P : Event -> Prop) : PreOrder (appends P).
Proof.
  split.
  - intros st. exists []. split; [symmetry; apply app_nil_r | constructor].
  - intros a b c (e1 & H1 & F1) (e2 & H2 & F2). exists (e1 ++ e2)%list.
    split; [rewrite H2, H1, app_assoc; reflexivity | apply Forall_app; auto].
Qed.

#[global] Instance same_selector_preorder : PreOrder same_selector.
Proof.
  split; [intros st; reflexivity|].
  intros a b c H1 H2. unfold same_selector in *. congruence.
Qed.

Section Stable.
Context (R : State -> State -> Prop) `{!PreOrder R}.

Lemma stable_ret {A : Type} (a : A) : stable R (mret a).
Proof. intros st r st' [= <- <-]. reflexivity. Qed.

Lemma stable_throw {A : Type} (e : ErrorObj) : stable R (@throw A e).
Proof. intros st r st' [= <- <-]. reflexivity. Qed.

Lemma stable_bind {A B : Type} (m : M A) (f : A -> M B) :
  stable R m -> (forall a, stable R (f a)) -> stable R (m ≫= f).
Proof.
  intros Hm Hf st r st'. unfold mbind, M_bind.
  destruct (m st) as [[a|e] st1] eqn:E; intros H.
  - transitivity st1; [eapply Hm, E | eapply Hf, H].
  - injection H as <- <-. eapply Hm, E.
Qed.

Lemma stable_get_heap : stable R get_heap.
Proof. intros st r st' [= <- <-]. reflexivity. Qed.

Lemma stable_get_selector : stable R get_selector.
Proof. intros st r st' [= <- <-]. reflexivity. Qed.

Lemma stable_get_invalidKeys (v : value) : stable R (get_invalidKeys v).
Proof. intros st r st' [= <- <-]. reflexivity. Qed.
End Stable.

Lemma ensures_bind {A B : Type} (Q : B -> State -> Prop) (m : M A) (f : A -> M B) :
  (forall a, ensures Q (f a)) -> ensures Q (m ≫= f).
Proof.
  intros Hf st b st'. unfold mbind, M_bind.
  destruct (m st) as [[a|e] st1]; [apply Hf | discriminate].
Qed.

Lemma ensures_throw {A : Type} (Q : A -> State -> Prop) (e : ErrorObj) :
  ensures Q (throw e).
Proof. intros st a st'. discriminate. Qed.

(** One step through the structure of a computation. *)
Ltac stable_step :=
  lazymatch goal with
  | |- stable _ (mbind _ _) => apply stable_bind; [typeclasses eauto | | intros]
  | |- stable _ (mret _) => apply stable_ret; typeclasses eauto
  | |- stable _ (throw _) => apply stable_throw; typeclasses eauto
  | |- stable _ get_heap => apply stable_get_heap; typeclasses eauto
  | |- stable _ get_selector => apply stable_get_selector; typeclasses eauto
  | |- stable _ (get_invalidKeys _) =>
      apply stable_get_invalidKeys; typeclasses eauto
  | |- stable _ (if ?b then _ else _) => destruct b
  | |- stable _ (match ?x with _ => _ end) => destruct x
  end.

Create HintDb stable_db.

Ltac stable_auto := repeat first [solve [auto with stable_db] | stable_step].

(** *** Which calls a computation makes *)

Section Appends.
Context (P : Event -> Prop).

Lemma appends_same_trace (st st' : State) : trace st' = trace st -> appends P st st'.
Proof.
  intros H. exists []. split; [rewrite H; symmetry; apply app_nil_r | constructor].
Qed.

Lemma appends_set_heap (h : gmap loc obj) : stable (appends P) (set_heap h).
Proof. intros st r st' [= <- <-]. apply appends_same_trace. reflexivity. Qed.

Lemma appends_set_selector (v : value) : stable (appends P) (set_selector v).
Proof. intros st r st' [= <- <-]. apply appends_same_trace. reflexivity. Qed.

Lemma appends_set_invalidKeys (v : value) (ks : list InvalidKey) :
  stable (appends P) (set_invalidKeys v ks).
Proof. intros st r st' [= <- <-]. apply appends_same_trace. reflexivity. Qed.

Lemma appends_log (e : Event) : P e -> stable (appends P) (log e).
Proof.
  intros He st r st' [= <- <-]. exists [e].
  split; [reflexivity | repeat constructor; exact He].
Qed.
End Appends.

#[global] Hint Resolve appends_set_heap appends_set_selector
  appends_set_invalidKeys : stable_db.

Lemma appends_log_other (e : Event) :
  not_storage_call e -> stable (appends not_storage_call) (log e).
Proof. apply appends_log. Qed.

#[global] Hint Extern 1 (stable (appends not_storage_call) (log _)) =>
  apply appends_log_other; unfold not_storage_call; simpl; tauto : stable_db.

Lemma same_selector_set_heap (h : gmap loc obj) : stable same_selector (set_heap h).
Proof. intros st r st' [= <- <-]. reflexivity. Qed.

Lemma same_selector_set_invalidKeys (v : value) (ks : list InvalidKey) :
  stable same_selector (set_invalidKeys v ks).
Proof. intros st r st' [= <- <-]. reflexivity. Qed.

Lemma same_selector_log (e : Event) : stable same_selector (log e).
Proof. intros st r st' [= <- <-]. reflexivity. Qed.

#[global] Hint Resolve same_selector_set_heap same_selector_set_invalidKeys
  same_selector_log : stable_db.

(** The store operations make no call and leave the cached selector. *)
Section StoreOperations.
Context (R : State -> State -> Prop) `{!PreOrder R}.
Hypothesis R_set_heap : forall h, stable R (set_heap h).

Lemma stable_read_field (v : value) (k : string) : stable R (read_field v k).
Proof using PreOrder0. unfold read_field. stable_auto. Qed.

Lemma stable_write_field (v : value) (k : string) (x : value) :
  stable R (write_field v k x).
Proof using PreOrder0 R_set_heap. unfold write_field. stable_auto. Qed.

Lemma stable_delete_field (v : value) (k : string) : stable R (delete_field v k).
Proof using PreOrder0 R_set_heap. unfold delete_field. stable_auto. Qed.

Lemma stable_alloc (o : obj) : stable R (alloc o).
Proof using PreOrder0 R_set_heap. unfold alloc. stable_auto. Qed.

Lemma stable_clone (v : value) : stable R (clone v).
Proof using PreOrder0 R_set_heap.
  unfold clone. destruct v; stable_auto; apply stable_alloc.
Qed.
End StoreOperations.

#[global] Hint Extern 2 (stable _ (read_field _ _)) =>
  apply stable_read_field; try typeclasses eauto : stable_db.
#[global] Hint Extern 2 (stable _ (write_field _ _ _)) =>
  apply stable_write_field; try typeclasses eauto; auto with stable_db : stable_db.
#[global] Hint Extern 2 (stable _ (delete_field _ _)) =>
  apply stable_delete_field; try typeclasses eauto; auto with stable_db : stable_db.
#[global] Hint Extern 2 (stable _ (clone _)) =>
  apply stable_clone; try typeclasses eauto; auto with stable_db : stable_db.

Section WritePathProperties.
Variable isServer : bool.
Variable meteorUserId : value.
Variable allowsKey : string -> bool.
Variable schema_clean : CleanOptions -> value -> gmap loc obj -> gmap loc obj.
Variable ctx_validate :
  ValidateOptions -> value -> value -> gmap loc obj -> value -> bool * list InvalidKey.
Variable keyErrorMessage : list InvalidKey -> string -> string.
Variable messageForError : string -> string -> value -> string.
Variable getInfoForKey : gmap loc obj -> value -> string -> option value.
Variable super_result : string -> list value -> value.
Variable newID : value.

Local Abbreviation doValidate' :=
  (doValidate isServer allowsKey schema_clean ctx_validate keyErrorMessage
     messageForError getInfoForKey).
Local Abbreviation validation_pass' :=
  (validation_pass isServer allowsKey schema_clean ctx_validate).
Local Abbreviation invoke' := (invoke messageForError getInfoForKey).
Local Abbreviation write_method' :=
  (write_method isServer meteorUserId allowsKey schema_clean ctx_validate
     keyErrorMessage messageForError getInfoForKey super_result newID).

(** *** The calls of the write path *)

Lemma push_notUnique_no_storage (doc vCtx : value) (error : ErrorObj) :
  stable (appends not_storage_call)
    (push_notUnique messageForError getInfoForKey doc vCtx error).
Proof. unfold push_notUnique. stable_auto. Qed.

Lemma invoke_no_storage (f : value) (error : option ErrorObj) (rest : list value) :
  stable (appends not_storage_call) (invoke' f error rest).
Proof.
  induction f; simpl; stable_auto; auto using push_notUnique_no_storage.
Qed.

Lemma fail_validation_no_storage (vCtx callback : value) :
  stable (appends not_storage_call)
    (fail_validation keyErrorMessage messageForError getInfoForKey vCtx callback).
Proof. unfold fail_validation. stable_auto. apply invoke_no_storage. Qed.

Lemma finish_valid_no_storage (type : string) (id doc options : value)
    (args : list value) :
  stable (appends not_storage_call) (finish_valid type id doc options args).
Proof. unfold finish_valid. stable_auto. Qed.

Lemma validation_pass_no_storage (type : string) (skip : bool) (uid : value)
    (trusted : bool) (args : list value) :
  stable (appends not_storage_call) (validation_pass' type skip uid trusted args).
Proof.
  unfold validation_pass, gather, detach_id, doClean, merge_selector.
  stable_auto.
Qed.

Lemma doValidate_no_storage (type : string) (skip : bool) (uid : value)
    (trusted : bool) (args : list value) :
  stable (appends not_storage_call) (doValidate' type skip uid trusted args).
Proof.
  unfold doValidate.
  stable_auto;
    auto using validation_pass_no_storage, finish_valid_no_storage,
      fail_validation_no_storage.
Qed.

(** *** The cached selector after validation *)

Lemma push_notUnique_same_selector (doc vCtx : value) (error : ErrorObj) :
  stable same_selector (push_notUnique messageForError getInfoForKey doc vCtx error).
Proof. unfold push_notUnique. stable_auto. Qed.

Lemma invoke_same_selector (f : value) (error : option ErrorObj)
    (rest : list value) :
  stable same_selector (invoke' f error rest).
Proof.
  induction f; simpl; stable_auto; auto using push_notUnique_same_selector.
Qed.

Lemma fail_validation_same_selector (vCtx callback : value) :
  stable same_selector
    (fail_validation keyErrorMessage messageForError getInfoForKey vCtx callback).
Proof. unfold fail_validation. stable_auto. apply invoke_same_selector. Qed.

Lemma finish_valid_same_selector (type : string) (id doc options : value)
    (args : list value) :
  stable same_selector (finish_valid type id doc options args).
Proof. unfold finish_valid. stable_auto. Qed.

Lemma context_keys_put (vCtx : value) (ks : list InvalidKey)
    (cs : list (value * list InvalidKey)) :
  context_keys vCtx (context_put vCtx ks cs) = ks.
Proof.
  induction cs as [|[n ks'] cs IH]; simpl.
  - unfold strict_eq. rewrite bool_decide_eq_true_2; reflexivity.
  - destruct (strict_eq vCtx n) eqn:E; simpl; rewrite E; auto.
Qed.

Ltac ensures_step :=
  lazymatch goal with
  | |- ensures _ (mbind _ (set_invalidKeys _ _)) => fail
  | |- ensures _ (mbind _ _) => apply ensures_bind; intros
  | |- ensures _ (throw _) => apply ensures_throw
  | |- ensures _ (if ?b then _ else _) => destruct b eqn:?
  | |- ensures _ (match ?x with _ => _ end) => destruct x eqn:?
  end.

Lemma validation_pass_validated (type : string) (skip : bool) (uid : value)
    (trusted : bool) (args : list value) :
  ensures (validated ctx_validate) (validation_pass' type skip uid trusted args).
Proof.
  unfold validation_pass. repeat ensures_step.
  - intros ? ? ? [= <- <-]. exact I.
  - intros ? ? ?. run. intros [= <- <-]. simpl.
    split; [reflexivity|]. rewrite context_keys_put. eauto.
Qed.

(** *** A failed validation *)

Lemma doValidate_failed (type : string) (skip : bool) (uid : value)
    (trusted : bool) (args : list value) (st st1 : State)
    (id doc options callback vCtx : value) (args1 : list value) :
  validation_pass' type skip uid trusted args st
  = (Returned (Checked false id doc options callback vCtx args1), st1) ->
  doValidate' type skip uid trusted args st
  = fail_validation keyErrorMessage messageForError getInfoForKey vCtx callback st1.
Proof. intros H. unfold doValidate. run. rewrite H. reflexivity. Qed.

(** C9: when validation fails, the error carries the invalid keys the
    validation left and a message naming the first of them; a caller's
    callback is called with the error and [false], the logging callback
    synthesized on the client logs it, and in both cases [doValidate]
    returns no argument list; without a callback the error is thrown; the
    wrapped method then makes no call of the underlying storage method. *)
Theorem validation_failure_reported (type : string) (skip : bool) (uid : value)
    (trusted : bool) (args : list value)
    (st st1 : State) (id doc options callback vCtx : value)
    (args1 : list value) (k : InvalidKey) (ks : list InvalidKey) :
  validation_pass' type skip uid trusted args st
  = (Returned (Checked false id doc options callback vCtx args1), st1) ->
  context_keys vCtx (contexts st1) = k :: ks ->
  let error := validation_error keyErrorMessage (k :: ks) in
  let outcome := doValidate' type skip uid trusted args st in
  err_invalidKeys error = Some (k :: ks)
  /\ (exists vopts docToValidate h sel,
        ctx_validate vopts vCtx docToValidate h sel = (false, k :: ks))
  /\ err_message error
     = "failed validation: " +:+ ik_name k +:+ ": "
       +:+ keyErrorMessage (k :: ks) (ik_name k)
  /\ (forall n, callback = VFun n ->
       outcome = (Returned None, logged st1 (EvCall callback (Some error) [VBool false])))
  /\ (forall t, callback = VLogger t ->
       outcome = (Returned None, logged st1 (EvDebug (t +:+ " failed: ") error)))
  /\ (truthy callback = false -> outcome = (Thrown error, st1))
  /\ (forall r st', outcome = (Returned r, st') -> r = None)
  /\ (skip = false ->
      uid = (if isClient isServer && truthy meteorUserId then meteorUserId
             else VNull) ->
      trusted = isServer ->
      forall r st', write_method' true type args st = (r, st') ->
                    appends not_storage_call st st').
Proof.
  intros Hpass Hkeys error outcome.
  pose proof (validation_pass_validated _ _ _ _ _ _ _ _ Hpass) as [_ Hv].
  rewrite Hkeys in Hv.
  assert (Hrun : outcome = fail_validation keyErrorMessage messageForError
                         getInfoForKey vCtx callback st1)
    by (apply doValidate_failed with (1 := Hpass)).
  assert (Hfail : fail_validation keyErrorMessage messageForError getInfoForKey
                    vCtx callback st1
                  = (if truthy callback
                     then invoke' callback (Some error) [VBool false];; mret None
                     else throw error) st1).
  { unfold fail_validation. run. rewrite Hkeys. reflexivity. }
  assert (Hnone : forall r st', outcome = (Returned r, st') -> r = None).
  { intros r st'. rewrite Hrun, Hfail.
    destruct (truthy callback); [|discriminate].
    run. destruct (invoke' callback (Some error) [VBool false] st1)
      as [[[]|e] st2]; [intros [= <- <-]; reflexivity | discriminate]. }
  assert (Hsto : forall r st', outcome = (r, st') -> appends not_storage_call st st')
    by (intros r st'; apply doValidate_no_storage).
  split; [reflexivity|]. split; [exact Hv|]. split; [reflexivity|].
  split; [|split; [|split; [|split]]].
  - intros n ->. rewrite Hrun, Hfail. reflexivity.
  - intros t ->. rewrite Hrun, Hfail. reflexivity.
  - intros Hc. rewrite Hrun, Hfail, Hc. reflexivity.
  - exact Hnone.
  - intros Hskip Huid Htrusted r st'. unfold write_method. run.
    rewrite <- Huid. clear Huid. subst skip trusted. fold outcome.
    clear Hrun Hfail. destruct outcome as [[o|e] st2].
    + rewrite (Hnone o st2 eq_refl). specialize (Hsto _ _ eq_refl).
      destruct (String.eqb type "insert"); simpl; intros [= <- <-].
      * etransitivity; [exact Hsto|]. exists [EvMakeNewID].
        split; [reflexivity|]. repeat constructor. intros [].
      * exact Hsto.
    + intros [= <- <-]. exact (Hsto _ _ eq_refl).
Qed.

(** *** Detaching and restoring [_id] *)

Lemma prop_get_set (k : string) (v : value) (o : obj) :
  prop_get k (prop_set k v o) = Some v.
Proof.
  induction o as [|[k' v'] o IH]; simpl.
  - rewrite String.eqb_refl. reflexivity.
  - destruct (String.eqb k k') eqn:E; simpl; rewrite ?String.eqb_refl, ?E; auto.
Qed.

Lemma prop_get_delete (k : string) (o : obj) :
  prop_get k (prop_delete k o) = None.
Proof.
  induction o as [|[k' v'] o IH]; simpl; [reflexivity|].
  destruct (String.eqb k k') eqn:E; simpl; rewrite ?E; auto.
Qed.

(** On the server, a document object whose [_id] is truthy and not declared
    goes on without it. *)
Lemma detach_id_removes (l : loc) (st : State) :
  isServer = true ->
  allowsKey "_id" = false ->
  truthy (field (heap st) (VObj l) "_id") = true ->
  exists st',
    detach_id isServer allowsKey (VObj l) st
    = (Returned (field (heap st) (VObj l) "_id"), st')
    /\ field (heap st') (VObj l) "_id" = VUndef.
Proof.
  intros Hs Ha Ht. unfold detach_id. rewrite Hs. run. simpl in Ht.
  rewrite Ht, Ha. simpl.
  eexists. split; [reflexivity|]. simpl.
  unfold props_of at 1. rewrite lookup_insert_eq. simpl.
  rewrite prop_get_delete. reflexivity.
Qed.

(** When validation has succeeded, a detached [id] is written back. *)
Lemma finish_valid_restores (type : string) (id options : value) (l : loc)
    (args : list value) (st st' : State) (r : option (list value)) :
  truthy id = true ->
  finish_valid type id (VObj l) options args st = (Returned r, st') ->
  field (heap st') (VObj l) "_id" = id.
Proof.
  intros Ht. unfold finish_valid. rewrite Ht. run. intros [= <- <-]. simpl.
  unfold props_of at 1. rewrite lookup_insert_eq. simpl.
  rewrite prop_get_set. reflexivity.
Qed.

(** When validation has failed and a caller's callback takes the error, no
    object is touched after the validation: a detached [id] stays detached. *)
Lemma fail_validation_heap (vCtx : value) (n : nat) (st st' : State)
    (r : Outcome (option (list value))) :
  fail_validation keyErrorMessage messageForError getInfoForKey vCtx (VFun n) st
  = (r, st') ->
  heap st' = heap st.
Proof. unfold fail_validation. run. intros [= <- <-]. reflexivity. Qed.

(** *** The test of the translator *)

(** The second alternative of the test asks whether the message starts with
    the text of [true], so an error passes whenever its message mentions the
    index prefix and does not start that way, whatever its name and code. *)
Lemma looks_like_duplicate_key_any (error : ErrorObj) :
  indexOf (err_message error) "true" <> 0%Z ->
  indexOf (err_message error) "c2_" <> (-1)%Z ->
  looks_like_duplicate_key error = true.
Proof.
  intros Htrue Hc2. unfold looks_like_duplicate_key. simpl.
  apply andb_true_iff. split.
  - apply orb_true_iff. right. apply negb_true_iff, Z.eqb_neq, Htrue.
  - apply negb_true_iff, Z.eqb_neq, Hc2.
Qed.

(** *** The cached selector *)

Lemma doValidate_selector (type : string) (skip : bool) (uid : value)
    (trusted : bool) (args : list value) (st st' : State)
    (r : option (list value)) :
  doValidate' type skip uid trusted args st = (Returned r, st') ->
  cached_selector st' = VNull
  \/ exists args', validation_pass' type skip uid trusted args st
                   = (Returned (Skipped args'), st').
Proof.
  unfold doValidate. run.
  destruct (validation_pass' type skip uid trusted args st)
    as [[pass|e] st1] eqn:E; [|discriminate].
  pose proof (validation_pass_validated _ _ _ _ _ _ _ _ E) as Hv.
  destruct pass as [args'|isValid id doc options callback vCtx args']; simpl in Hv.
  - intros [= <- <-]. right. eauto.
  - destruct Hv as [Hsel _]. intros H. left. rewrite <- Hsel.
    destruct isValid.
    + exact (finish_valid_same_selector _ _ _ _ _ _ _ _ H).
    + exact (fail_validation_same_selector _ _ _ _ _ H).
Qed.

(** An update or upsert that skips validation returns with the selector
    still cached. *)
Lemma doValidate_update_skipped (type : string) (skip : bool) (uid : value)
    (trusted : bool) (args : list value) (st : State) :
  type = "update" \/ type = "upsert" ->
  field (heap st) (arg 2 args) "validate" = VBool false ->
  doValidate' type skip uid trusted args st
  = (Returned (Some args),
     {| heap := heap st; cached_selector := arg 0 args; contexts := contexts st;
        trace := trace st |}).
Proof.
  intros Ht Hv.
  destruct (field_bool_object _ _ _ _ Hv) as [lo Hlo].
  assert (Hne : args <> []).
  { intros ->. rewrite arg_nil in Hlo. discriminate. }
  unfold doValidate, validation_pass, gather.
  rewrite bool_decide_eq_false_2 by assumption.
  destruct Ht as [-> | ->]; run; rewrite Hlo; simpl; rewrite andb_false_r;
    rewrite <- Hlo; cbn [heap]; rewrite Hv; reflexivity.
Qed.

(** *** Skipping validation *)

Lemma doValidate_insert_skipped (skip : bool) (uid : value) (trusted : bool)
    (args : list value) (st : State) :
  field (heap st) (arg 1 args) "validate" = VBool false ->
  doValidate' "insert" skip uid trusted args st
  = (Returned (Some (insert_forwarded args)),
     {| heap := heap st; cached_selector := VNull; contexts := contexts st;
        trace := trace st |}).
Proof.
  intros Hv.
  destruct (field_bool_object _ _ _ _ Hv) as [lo Hlo].
  assert (Hne : args <> []).
  { intros ->. rewrite arg_nil in Hlo. discriminate. }
  unfold doValidate, validation_pass, gather.
  rewrite bool_decide_eq_false_2 by assumption.
  run. rewrite Hlo. simpl. rewrite andb_false_r. rewrite <- Hlo. cbn [heap].
  rewrite Hv. simpl. unfold insert_forwarded.
  destruct (is_function (arg 2 args)); reflexivity.
Qed.

(** C8: an insert whose options set [validate] to false makes no call to
    cleaning or validation, leaves every object (the document among them) as
    it was, wraps no callback, and hands the caller's document to the
    underlying insert. *)
Theorem insert_validate_false (has_c2 : bool) (args : list value) (st : State) :
  field (heap st) (arg 1 args) "validate" = VBool false ->
  exists forwarded st',
    write_method' has_c2 "insert" args st
    = (Returned (super_result "insert" forwarded), st')
    /\ trace st' = (trace st ++ [EvSuper "insert" forwarded])%list
    /\ arg 0 forwarded = arg 0 args
    /\ heap st' = heap st
    /\ contexts st' = contexts st
    /\ (has_c2 = true -> forwarded = insert_forwarded args).
Proof.
  intros Hv. unfold write_method. destruct has_c2.
  - exists (insert_forwarded args). eexists. run.
    rewrite (doValidate_insert_skipped _ _ _ _ _ Hv). simpl.
    repeat split; reflexivity.
  - exists args. eexists. run. repeat split; try reflexivity. discriminate.
Qed.

End WritePathProperties.

(** *** The validation snapshot on the client *)

(** C4, as the code has it: on the client the live document is first
    cleaned with filtering and type coercion but without auto-values; the
    additional pass is given the snapshot and not the live document, and
    computes auto-values without filtering or type coercion; the snapshot of
    a document object is a shallow clone of the cleaned document, a new
    object with the same property values, and it is the snapshot, as the
    additional pass left it, that is validated; nothing is detached. *)
Theorem client_snapshot_clean
    (allowsKey : string -> bool)
    (schema_clean : CleanOptions -> value -> gmap loc obj -> gmap loc obj)
    (ctx_validate :
       ValidateOptions -> value -> value -> gmap loc obj -> value
       -> bool * list InvalidKey)
    (isServer : bool) (type : string) (skip : bool) (uid : value) (trusted : bool)
    (args : list value) (st st1 : State) (isValid : bool)
    (id doc options callback vCtx : value) (args1 : list value) :
  isServer = false ->
  validation_pass isServer allowsKey schema_clean ctx_validate type skip uid
    trusted args st
  = (Returned (Checked isValid id doc options callback vCtx args1), st1) ->
  exists snapshot o1 o2 vo,
    trace st1
    = (trace st ++ [EvClean doc o1; EvClean snapshot o2;
                    EvValidate vCtx snapshot vo])%list
    /\ (co_filter o1 = true /\ co_autoConvert o1 = true
        /\ co_getAutoValues o1 = false)
    /\ (co_filter o2 = false /\ co_autoConvert o2 = false
        /\ co_getAutoValues o2 = true)
    /\ id = VUndef
    /\ doc = pass_doc type args
    /\ (exists sel,
          ctx_validate vo vCtx snapshot (heap st1) sel
          = (isValid, context_keys vCtx (contexts st1)))
    /\ (forall l, doc = VObj l ->
        let cleaned := schema_clean o1 doc (heap st) in
        exists l', snapshot = VObj l'
                   /\ (l' ∉ dom cleaned)
                   /\ heap st1
                      = schema_clean o2 snapshot
                          (<[l' := props_of cleaned l]> cleaned))
    /\ (isObject doc = false ->
        snapshot = doc
        /\ heap st1 = schema_clean o2 doc (schema_clean o1 doc (heap st))).
Proof.
  intros -> H. revert H.
  unfold validation_pass, gather, detach_id, doClean, isClient, pass_doc.
  destruct (bool_decide (args = [])); [discriminate|].
  run.
  assert (Hfresh : forall h : gmap loc obj, fresh (dom h) ∉ dom h)
    by (intros h; apply is_fresh).
  destruct (String.eqb type "insert") eqn:Hins; simpl;
    [|destruct (String.eqb type "update" || String.eqb type "upsert");
      simpl; [|discriminate]].
  all: match goal with
       | |- context [negb (truthy ?c) && is_function ?o] =>
           destruct (negb (truthy c) && is_function o); simpl
       end.
  all: match goal with
       | |- context [strict_eq (field ?h ?o "validate") (VBool false)] =>
           destruct (strict_eq (field h o "validate") (VBool false));
           simpl; [discriminate|]
       | _ => idtac
       end.
  all: match goal with
       | |- context [clone ?d] => destruct d eqn:Hdoc; simpl
       end.
  all: destruct (ctx_validate _ _ _ _ _) as [v ks] eqn:Hv; simpl.
  all: intros [= <- <- <- <- <- <- <- <-]; simpl.
  all: do 4 eexists; (split; [rewrite <- !app_assoc; reflexivity|]).
  all: split; [repeat split; reflexivity|].
  all: split; [repeat split; reflexivity|].
  all: split; [reflexivity|].
  all: split; [reflexivity|].
  all: split; [eexists; rewrite context_keys_put; exact Hv|].
  all: split.
  all: try (intros l' E; discriminate E).
  all: try (intros Hobj; discriminate Hobj).
  all: try (intros Hobj; split; reflexivity).
  all: intros l' E; injection E as <-; cbv zeta; eexists.
  all: split; [reflexivity | split; [apply Hfresh | reflexivity]].
Qed.

(** ** The write path at sample inputs *)

Lemma insert_validate_false_witness :
  exists st',
    sample_write_method true true "insert" [VObj 1; VObj 2; VFun 0] sample_state
    = (Returned (VStr "stored"), st')
    /\ trace st' = [EvSuper "insert" [VObj 1; VFun 0]]
    /\ heap st' = heap sample_state.
Proof.
  destruct (insert_validate_false true VUndef no_key_allowed clean_nothing
              name_required first_message must_be_unique top_level_value
              stored_id (VStr "fresh-id") true [VObj 1; VObj 2; VFun 0]
              sample_state eq_refl)
    as (forwarded & st' & Hrun & Htrace & _ & Hheap & _ & Hfw).
  rewrite (Hfw eq_refl) in Hrun, Htrace.
  exists st'. split; [exact Hrun|]. split; [exact Htrace | exact Hheap].
Defined.

(** A server insert of a document without a name, with a callback: the
    callback gets the error and nothing is returned. *)
Lemma validation_failure_reported_witness :
  sample_doValidate true "insert" false VNull true [VObj 1; VFun 0] sample_state
  = (Returned None,
     logged (snd (sample_validation_pass true "insert" false VNull true
                    [VObj 1; VFun 0] sample_state))
       (EvCall (VFun 0) (Some (validation_error first_message [name_missing]))
          [VBool false])).
Proof.
  destruct (validation_failure_reported true VUndef no_key_allowed clean_nothing
              name_required first_message must_be_unique top_level_value
              stored_id (VStr "fresh-id") "insert" false VNull true
              [VObj 1; VFun 0] sample_state
              (snd (sample_validation_pass true "insert" false VNull true
                      [VObj 1; VFun 0] sample_state))
              (VStr "abc") (VObj 1) VUndef (VFun 0) VUndef [VObj 1; VFun 0]
              name_missing [])
    as (_ & _ & _ & Hcall & _).
  - vm_compute. reflexivity.
  - vm_compute. reflexivity.
  - exact (Hcall 0%nat eq_refl).
Defined.

(** A client insert of a named document: two cleaning passes, the second
    on the snapshot. *)
Lemma client_snapshot_clean_witness :
  exists snapshot o1 o2 vo,
    trace (snd (sample_validation_pass false "insert" false VNull false
                  [VObj 6] sample_state))
    = [EvClean (VObj 6) o1; EvClean snapshot o2; EvValidate VUndef snapshot vo]
    /\ co_autoConvert o2 = false /\ co_getAutoValues o2 = true.
Proof.
  destruct (client_snapshot_clean no_key_allowed clean_nothing name_required
              false "insert" false VNull false [VObj 6] sample_state
              (snd (sample_validation_pass false "insert" false VNull false
                      [VObj 6] sample_state))
              true VUndef (VObj 6) VUndef (VLogger "insert") VUndef [VObj 6]
              eq_refl)
    as (snapshot & o1 & o2 & vo & Htrace & _ & (_ & Hconv & Hauto) & _).
  - vm_compute. reflexivity.
  - exists snapshot, o1, o2, vo. split; [exact Htrace | split; assumption].
Defined.

(** C4 fails as stated.  In the pass over the snapshot of a client insert,
    type coercion is switched off.  And for a client update of modifier 4,
    whose [$set] is object 5, the pass over the snapshot, which shares that
    [$set] object, leaves its auto-value in the modifier that is returned
    for forwarding, though the pass over the modifier itself computed none. *)
Lemma client_snapshot_not_coerced :
  trace (snd (sample_validation_pass false "insert" false VNull false
                [VObj 6] sample_state))
  = (let octx := {| isInsert := true; isUpdate := false; isUpsert := false;
                    userId := VNull; isFromTrustedCode := false |} in
     [EvClean (VObj 6)
        {| co_filter := true; co_autoConvert := true; co_getAutoValues := false;
           co_isModifier := false; co_extendAutoValueContext := octx |};
      EvClean (VObj 7)
        {| co_filter := false; co_autoConvert := false; co_getAutoValues := true;
           co_isModifier := false; co_extendAutoValueContext := octx |};
      EvValidate VUndef (VObj 7)
        {| vo_modifier := false; vo_upsert := false;
           vo_extendedCustomContext := octx |}])
  /\ (let run := stamping_doValidate false "update" false VNull false
                   [VObj 3; VObj 4] sample_state in
      let octx := {| isInsert := false; isUpdate := true; isUpsert := false;
                     userId := VNull; isFromTrustedCode := false |} in
      fst run = Returned (Some [VObj 3; VObj 4])
      /\ firstn 2 (trace (snd run))
         = [EvClean (VObj 4)
              {| co_filter := true; co_autoConvert := true;
                 co_getAutoValues := false; co_isModifier := true;
                 co_extendAutoValueContext := octx |};
            EvClean (VObj 7)
              {| co_filter := false; co_autoConvert := false;
                 co_getAutoValues := true; co_isModifier := true;
                 co_extendAutoValueContext := octx |}]
      /\ field (heap (snd run)) (VObj 4) "$set" = VObj 5
      /\ field (heap sample_state) (VObj 5) "updatedAt" = VUndef
      /\ field (heap (snd run)) (VObj 5) "updatedAt" = VNum 1700000000).
Proof. vm_compute. repeat split. Qed.

(** C3 at failing input: a server insert, with a callback, of document 1,
    which has an [_id] the schema does not declare and fails validation.
    The callback gets the error, and the document is left without its
    [_id].  Document 6, which passes, gets its [_id] back. *)
Theorem failed_insert_loses_id :
  let st' := snd (sample_doValidate true "insert" false VNull true
                    [VObj 1; VFun 0] sample_state) in
  let st'' := snd (sample_doValidate true "insert" false VNull true
                     [VObj 6; VFun 0] sample_state) in
  field (heap sample_state) (VObj 1) "_id" = VStr "abc"
  /\ fst (sample_doValidate true "insert" false VNull true
            [VObj 1; VFun 0] sample_state) = Returned None
  /\ heap st' !! 1%positive = Some [("age", VNum 5)]
  /\ field (heap st') (VObj 1) "_id" = VUndef
  /\ field (heap st'') (VObj 6) "_id" = VStr "abc".
Proof. vm_compute. repeat split. Qed.

(** C7 at failing input: a server update called with [{validate: false}]
    returns its arguments with the selector still cached. *)
Theorem skipped_update_keeps_selector :
  sample_doValidate true "update" false VNull true [VObj 3; VObj 4; VObj 2]
    sample_state
  = (Returned (Some [VObj 3; VObj 4; VObj 2]),
     {| heap := heap sample_state; cached_selector := VObj 3;
        contexts := contexts sample_state; trace := trace sample_state |}).
Proof.
  apply (doValidate_update_skipped true no_key_allowed clean_nothing
           name_required first_message must_be_unique top_level_value);
    [left|]; reflexivity.
Qed.

(** C1 at failing input: the wrapped callback is given a storage error that
    is no duplicate-key error but mentions [c2_items]; a [notUnique] record
    for a field [items] is pushed on the context before the callback gets
    the error.  A duplicate-key error on the index [c2_email] is translated
    the same way, and without [c2_] in the message nothing is pushed. *)
Theorem not_master_reported_notUnique :
  let wrapped := wrapCallbackForNotUnique (VObj 1) VUndef (VFun 0) in
  let call error := invoke must_be_unique top_level_value wrapped (Some error) []
                      sample_state in
  looks_like_duplicate_key not_master = true
  /\ contexts (snd (call not_master))
     = [(VUndef, [{| ik_name := "items"; ik_type := "notUnique";
                     ik_value := VUndef;
                     ik_message := "items must be unique" |}])]
  /\ trace (snd (call not_master)) = [EvCall (VFun 0) (Some not_master) []]
  /\ contexts (snd (call duplicate_email))
     = [(VUndef, [{| ik_name := "email"; ik_type := "notUnique";
                     ik_value := VUndef;
                     ik_message := "email must be unique" |}])]
  /\ contexts (snd (call (new_Error "connection lost"))) = [].
Proof. vm_compute. repeat split. Qed.

(** * Further properties *)

(** ** The validation rule beyond updates *)

Ltac validator_cases :=
  unfold validator, unique_check, count_check;
  repeat match goal with
         | |- context [if ?b then _ else _] => destruct b eqn:?; simpl
         | |- context [match ?x with _ => _ end] => destruct x eqn:?; simpl
         end.

(** [insertNotAllowed] is the verdict exactly for a [denyInsert] field given
    a value other than [undefined] outside a modifier; nothing else about the
    field, the store or the selector matters. *)
Theorem denyInsert_rule (isServer skip : bool) (sel : selector)
    (find_count : query -> nat) (findOne : query -> bool)
    (def : FieldDef) (val : value) (op : option string) (key : string) :
  validator isServer skip sel find_count findOne def val op key
  = Invalid "insertNotAllowed"
  <-> def_denyInsert def = Some true /\ val <> VUndef /\ op_truthy op = false.
Proof.
  assert (Hf : forall f, flag f = true <-> f = Some true).
  { intros [[]|]; simpl; split; congruence. }
  split.
  - unfold validator.
    destruct (flag (def_denyInsert def) && negb (strict_eq val VUndef)
              && negb (op_truthy op)) eqn:E.
    + intros _. apply andb_true_iff in E as [E Hop].
      apply andb_true_iff in E as [Hd Hv].
      apply Hf in Hd. apply negb_true_iff, strict_eq_false in Hv.
      apply negb_true_iff in Hop. auto.
    + validator_cases; discriminate.
  - intros (Hd & Hv & Hop). unfold validator.
    apply Hf in Hd. apply strict_eq_false in Hv. rewrite Hd, Hv, Hop.
    reflexivity.
Qed.

(** [notUnique] is reported only for a field declared unique, with the
    test flag unset, for a value that is neither [undefined] nor [null], and
    never on the server for a field whose index is 1, -1 or [true]. *)
Theorem notUnique_only_when_checked (isServer skip : bool) (sel : selector)
    (find_count : query -> nat) (findOne : query -> bool)
    (def : FieldDef) (val : value) (op : option string) (key : string) :
  validator isServer skip sel find_count findOne def val op key
  = Invalid "notUnique" ->
  def_unique def = Some true /\ skip = false
  /\ val <> VUndef /\ val <> VNull
  /\ isServer && has_usable_index def = false.
Proof.
  unfold validator.
  destruct (flag (def_denyInsert def) && _ && _); [discriminate|].
  destruct (flag (def_denyUpdate def) && _ && _); [discriminate|].
  destruct (def_unique def) as [[]|] eqn:Hu; simpl; try discriminate.
  destruct skip; simpl; [discriminate|].
  destruct (strict_eq val VUndef) eqn:H1; simpl; [discriminate|].
  destruct (strict_eq val VNull) eqn:H2; simpl; [discriminate|].
  destruct (isServer && has_usable_index def); [discriminate|].
  apply strict_eq_false in H1, H2. auto.
Qed.

Lemma notUnique_only_when_checked_witness :
  def_unique unique_definition = Some true /\ false = false
  /\ VNum 1 <> VUndef /\ VNum 1 <> VNull
  /\ false && has_usable_index unique_definition = false.
Proof.
  apply (notUnique_only_when_checked false false SelNone (count_in counters)
           (found_in counters) unique_definition (VNum 1) None "n").
  reflexivity.
Defined.

Lemma found_in_test (coll : list document) (key : string) (val : value) :
  found_in coll [(key, CEq val)] = true
  <-> exists d, In d coll /\ prop_get key d = Some val.
Proof.
  unfold found_in. rewrite existsb_exists.
  split; intros (d & Hin & Hd); exists d; split; auto.
  - simpl in Hd. rewrite andb_true_r in Hd.
    apply bool_decide_eq_true in Hd. exact Hd.
  - simpl. rewrite andb_true_r. apply bool_decide_eq_true. exact Hd.
Qed.

(** An insert into a unique field, with a value set and no storage index
    relied on, is [notUnique] exactly when a stored document holds the value
    in that field, and valid otherwise; the cached selector plays no part. *)
Theorem insert_unique_rule (isServer : bool) (sel : selector)
    (coll : list document) (def : FieldDef) (val : value) (key : string) :
  def_unique def = Some true ->
  flag (def_denyInsert def) = false ->
  val <> VUndef -> val <> VNull ->
  isServer && has_usable_index def = false ->
  let verdict := validator_on isServer false sel coll def val None key in
  (verdict = Invalid "notUnique"
   <-> exists d, In d coll /\ prop_get key d = Some val)
  /\ (verdict <> Invalid "notUnique" -> verdict = Valid).
Proof.
  intros Hu Hd Hv1 Hv2 Hidx verdict. subst verdict.
  unfold validator_on, validator.
  apply strict_eq_false in Hv1, Hv2.
  rewrite Hu, Hd, Hv1, Hv2, Hidx. simpl. rewrite andb_false_r. simpl.
  unfold unique_check. simpl. rewrite <- found_in_test.
  destruct (found_in coll [(key, CEq val)]).
  - split; [split; auto | congruence].
  - split; [split; discriminate | reflexivity].
Qed.

Lemma insert_unique_rule_witness :
  validator_on false false SelNone counters unique_definition (VNum 1) None "n"
  = Invalid "notUnique".
Proof.
  destruct (insert_unique_rule false SelNone counters unique_definition
              (VNum 1) "n" eq_refl eq_refl ltac:(discriminate)
              ltac:(discriminate) eq_refl)
    as [Hiff _].
  apply Hiff. exists [("_id", VStr "a"); ("n", VNum 1)].
  split; [left; reflexivity | reflexivity].
Defined.

Lemma filter_none_length {A : Type} (f : A -> bool) (l : list A) :
  (forall x, In x l -> f x = false) -> length (List.filter f l) = 0%nat.
Proof.
  induction l as [|x l IH]; simpl; intros H; [reflexivity|].
  rewrite (H x) by auto. apply IH. intros y Hy. apply H. auto.
Qed.

(** Saving a unique value back to the documents that already hold it is not
    a violation: when every document the selector matches holds the value
    and at most one document of the collection does, an update other than
    [$inc] through a selector that does not mention the field is valid. *)
Theorem resave_unique_value (isServer : bool) (sel : selector) (q : query)
    (coll : list document) (def : FieldDef) (val : value) (op : string)
    (key : string) :
  def_unique def = Some true ->
  flag (def_denyUpdate def) = false ->
  val <> VUndef -> val <> VNull ->
  isServer && has_usable_index def = false ->
  op <> "" -> op <> "$inc" ->
  selector_query sel = Some q ->
  prop_get key q = None ->
  (forall d, In d coll -> matches q d = true -> prop_get key d = Some val) ->
  (countMatchingValue coll key val <= 1)%nat ->
  validator_on isServer false sel coll def val (Some op) key = Valid.
Proof.
  intros Hu Hd Hv1 Hv2 Hidx Hop Hinc Hq Hfresh Hheld Hone.
  unfold validator_on.
  rewrite validator_unique_check;
    [|assumption..|simpl; apply negb_true_iff, String.eqb_neq, Hop].
  rewrite Hd. unfold unique_check.
  replace (op_truthy (Some op)) with true
    by (symmetry; apply negb_true_iff, String.eqb_neq, Hop).
  replace (op_is (Some op) "$inc") with false
    by (symmetry; apply String.eqb_neq, Hinc).
  simpl.
  assert (Hcheck : count_check (count_in coll) val key q = Valid).
  { unfold count_check. rewrite count_in_test, count_in_will_adopt by assumption.
    unfold countWillAdopt at 1.
    rewrite filter_none_length.
    - rewrite Nat.add_0_r. destruct (Nat.ltb_spec 1 (countMatchingValue coll key val));
        [lia | reflexivity].
    - intros d Hin. destruct (matches q d) eqn:Hm; [|reflexivity].
      rewrite (Hheld d Hin Hm). simpl.
      rewrite bool_decide_eq_true_2; reflexivity. }
  destruct sel as [|s|q0]; simpl in Hq.
  - discriminate.
  - destruct (String.eqb s ""); [discriminate|]. injection Hq as <-. exact Hcheck.
  - injection Hq as <-. exact Hcheck.
Qed.

Lemma resave_unique_value_witness :
  validator_on false false (SelStr "t3") open_tickets unique_definition
    (VStr "X") (Some "$set") "code"
  = Valid.
Proof.
  apply (resave_unique_value false (SelStr "t3") [("_id", CEq (VStr "t3"))]
           open_tickets unique_definition (VStr "X") "$set" "code");
    try reflexivity; try discriminate.
  intros d [<- | [<- | [<- | []]]]; simpl; intros H;
    [discriminate | discriminate | reflexivity].
Defined.

(** ** Index set-up at its edges *)

(** An index is dropped exactly for a spec of [false] on the server, under
    the name [c2_] followed by the field name; nothing at all is scheduled
    exactly on the client or for a field without an [index] option. *)
Theorem index_drop_and_skip (isServer : bool) (fieldName : string)
    (definition : FieldDef) :
  (forall name,
     ensure_field_index isServer fieldName definition = Some (DropIndex name)
     <-> isServer = true /\ def_index definition = Some (VBool false)
         /\ name = "c2_" +:+ fieldName)
  /\ (ensure_field_index isServer fieldName definition = None
      <-> isServer = false \/ def_index definition = None).
Proof.
  unfold ensure_field_index.
  destruct (def_index definition) as [v|]; destruct isServer; simpl.
  - destruct (strict_eq (resolve_index v) (VBool false)) eqn:E; simpl.
    + apply strict_eq_true in E. unfold resolve_index in E.
      destruct (strict_eq v (VBool true)); [discriminate|]. subst v.
      split; [|split; [discriminate | intros [|]; discriminate]].
      intros name. split; [intros [= <-]; auto | intros (_ & _ & ->); reflexivity].
    + apply strict_eq_false in E. unfold resolve_index in E.
      split; [|split; [discriminate | intros [|]; discriminate]].
      intros name. split; [discriminate|]. intros (_ & [= ->] & _).
      simpl in E. congruence.
  - split; [|split; auto].
    intros name. split; [discriminate | intros (H & _); discriminate].
  - split; [|split; auto].
    intros name. split; [discriminate | intros (_ & H & _); discriminate].
  - split; [|split; auto].
    intros name. split; [discriminate | intros (H & _); discriminate].
Qed.

(** ** The read-side transform *)

Lemma prop_get_set_other (k n : string) (v : value) (o : obj) :
  k <> n -> prop_get k (prop_set n v o) = prop_get k o.
Proof.
  intros Hne. induction o as [|[k' v'] o IH]; simpl.
  - destruct (String.eqb_spec k n); [contradiction | reflexivity].
  - destruct (String.eqb_spec n k') as [->|Hnk]; simpl.
    + destruct (String.eqb_spec k k'); [contradiction | reflexivity].
    + destruct (String.eqb k k'); [reflexivity | exact IH].
Qed.

Lemma add_virtual_fields_other (virtualFields : list (string * (obj -> value)))
    (doc : obj) (k : string) :
  ~ In k (map fst virtualFields) ->
  prop_get k (add_virtual_fields virtualFields doc) = prop_get k doc.
Proof.
  unfold add_virtual_fields. revert doc.
  induction virtualFields as [|[n f] vfs IH]; simpl; intros doc Hk; [reflexivity|].
  rewrite IH by (intros H; apply Hk; right; exact H).
  apply prop_get_set_other. intros ->. apply Hk. left. reflexivity.
Qed.



(** A virtual field is computed from the document as earlier virtual fields
    left it: a field that no later virtual field overwrites holds its
    function applied to the document with the earlier fields added. *)
Theorem virtual_field_value (earlier later : list (string * (obj -> value)))
    (name : string) (func : obj -> value) (doc : obj) :
  ~ In name (map fst later) ->
  prop_get name (add_virtual_fields (earlier ++ (name, func) :: later) doc)
  = Some (func (add_virtual_fields earlier doc)).
Proof.
  intros Hlater. unfold add_virtual_fields. rewrite fold_left_app. simpl.
  fold (add_virtual_fields earlier doc).
  fold (add_virtual_fields later
          (prop_set name (func (add_virtual_fields earlier doc))
             (add_virtual_fields earlier doc))).
  rewrite add_virtual_fields_other by assumption.
  apply prop_get_set.
Qed.

Lemma virtual_field_value_witness :
  prop_get "label" (add_virtual_fields sample_virtualFields ann)
  = Some (VStr "Ann Lee").
Proof.
  apply (virtual_field_value [("fullName", full_name)] [] "label"
           (fun doc => default VNull (prop_get "fullName" doc)) ann).
  intros [].
Defined.

(** ** Splitting a message at the index name *)












(** ** The uniqueness-violation translator *)

Section Translator.
Variable messageForError : string -> string -> value -> string.
Variable getInfoForKey : gmap loc obj -> value -> string -> option value.

Local Abbreviation invoke' := (invoke messageForError getInfoForKey).

(** Without an error, or with an error whose message does not mention
    [c2_], the wrapped callback does exactly what the callback does: the
    same call with the same arguments and nothing pushed on any context. *)
Theorem translator_transparent (doc vCtx cb : value) (error : option ErrorObj)
    (rest : list value) (st : State) :
  (forall e, error = Some e -> indexOf (err_message e) "c2_" = (-1)%Z) ->
  invoke' (wrapCallbackForNotUnique doc vCtx cb) error rest st
  = invoke' cb error rest st.
Proof.
  intros H. unfold wrapCallbackForNotUnique. cbn [invoke]. run.
  destruct error as [e|]; [|reflexivity].
  unfold looks_like_duplicate_key. rewrite (H e eq_refl).
  rewrite andb_false_r. reflexivity.
Qed.

End Translator.

(** ** More of the write path *)

Lemma bind_returned {A B : Type} (m : M A) (f : A -> M B) (st st' : State)
    (b : B) :
  (m ≫= f) st = (Returned b, st') ->
  exists a st1, m st = (Returned a, st1) /\ f a st1 = (Returned b, st').
Proof.
  unfold mbind, M_bind. destruct (m st) as [[a|e] st1]; [eauto | discriminate].
Qed.

Ltac ensures_walk :=
  lazymatch goal with
  | |- ensures _ (mbind _ (set_invalidKeys _ _)) => fail
  | |- ensures _ (mbind _ _) => apply ensures_bind; intros
  | |- ensures _ (throw _) => apply ensures_throw
  | |- ensures _ (if ?b then _ else _) => destruct b eqn:?
  | |- ensures _ (match ?x with _ => _ end) => destruct x eqn:?
  end.

(** *** Merging the selector into the snapshot of an upsert *)

Lemma prop_get_none (k : string) (o : obj) :
  ~ In k (map fst o) -> prop_get k o = None.
Proof.
  induction o as [|[k' v'] o IH]; simpl; intros H; [reflexivity|].
  destruct (String.eqb_spec k k') as [->|Hne]; [tauto|]. apply IH. tauto.
Qed.

(** [_.extend(target, source)]: the source's properties win. *)
Lemma prop_get_extend (k : string) (target source : obj) :
  NoDup (map fst source) ->
  prop_get k (extend target source)
  = match prop_get k source with
    | Some v => Some v
    | None => prop_get k target
    end.
Proof.
  unfold extend. revert target.
  induction source as [|[k1 v1] source IH]; simpl; intros target Hnd;
    [reflexivity|].
  apply NoDup_cons in Hnd as [Hnotin Hnd].
  rewrite IH by assumption.
  destruct (String.eqb_spec k k1) as [->|Hne].
  - rewrite prop_get_none, prop_get_set; [reflexivity|].
    intros Hin. apply Hnotin, list_elem_of_In, Hin.
  - rewrite prop_get_set_other by assumption. reflexivity.
Qed.

Lemma props_of_insert (h : gmap loc obj) (a b : loc) (o : obj) :
  props_of (<[a := o]> h) b = if decide (a = b) then o else props_of h b.
Proof. unfold props_of. rewrite lookup_insert. destruct (decide (a = b)); reflexivity. Qed.

(** For a server upsert whose modifier has a [$set], the snapshot gets a new
    [$set] object holding the selector's fields overridden by the entries
    of the modifier's [$set]; the selector object, the modifier's own [$set]
    object and the other properties of the snapshot stay as they were. *)
Theorem selector_merge_precedence (l ls lset : loc) (st : State) :
  cached_selector st = VObj ls ->
  field (heap st) (VObj l) "$set" = VObj lset ->
  is_Some (heap st !! l) -> is_Some (heap st !! ls) ->
  is_Some (heap st !! lset) ->
  l <> ls -> l <> lset ->
  NoDup (map fst (props_of (heap st) lset)) ->
  exists lm st',
    merge_selector (VObj l) st = (Returned tt, st')
    /\ heap st !! lm = None
    /\ field (heap st') (VObj l) "$set" = VObj lm
    /\ (forall k,
          prop_get k (props_of (heap st') lm)
          = match prop_get k (props_of (heap st) lset) with
            | Some v => Some v
            | None => prop_get k (props_of (heap st) ls)
            end)
    /\ props_of (heap st') ls = props_of (heap st) ls
    /\ props_of (heap st') lset = props_of (heap st) lset
    /\ (forall k, k <> "$set" ->
          prop_get k (props_of (heap st') l) = prop_get k (props_of (heap st) l)).
Proof.
  intros Hsel Hset Hl Hls Hlset Hne1 Hne2 Hnd.
  set (lm := fresh (dom (heap st))).
  assert (Hfresh : heap st !! lm = None)
    by (apply not_elem_of_dom, is_fresh).
  assert (Hlm : lm <> l /\ lm <> ls /\ lm <> lset).
  { repeat split; intros E; rewrite E in Hfresh; rewrite Hfresh in *;
      match goal with H : is_Some None |- _ => destruct H; discriminate end. }
  destruct Hlm as (Hm1 & Hm2 & Hm3).
  exists lm. unfold merge_selector, clone, alloc, write_field. run.
  rewrite Hsel. simpl in Hset. rewrite Hset. run. fold lm.
  eexists. split; [reflexivity|]. cbn [heap field].
  split; [exact Hfresh|].
  rewrite !props_of_insert.
  repeat (destruct (decide _); try congruence).
  split; [rewrite prop_get_set; reflexivity|].
  split; [intros k; apply prop_get_extend, Hnd|].
  split; [reflexivity|]. split; [reflexivity|].
  intros k Hk. apply prop_get_set_other, Hk.
Qed.

Section WritePathFurther.
Variable isServer : bool.
Variable meteorUserId : value.
Variable allowsKey : string -> bool.
Variable schema_clean : CleanOptions -> value -> gmap loc obj -> gmap loc obj.
Variable ctx_validate :
  ValidateOptions -> value -> value -> gmap loc obj -> value -> bool * list InvalidKey.
Variable keyErrorMessage : list InvalidKey -> string -> string.
Variable messageForError : string -> string -> value -> string.
Variable getInfoForKey : gmap loc obj -> value -> string -> option value.
Variable super_result : string -> list value -> value.
Variable newID : value.

Local Abbreviation doValidate' :=
  (doValidate isServer allowsKey schema_clean ctx_validate keyErrorMessage
     messageForError getInfoForKey).
Local Abbreviation validation_pass' :=
  (validation_pass isServer allowsKey schema_clean ctx_validate).
Local Abbreviation invoke' := (invoke messageForError getInfoForKey).
Local Abbreviation fail_validation' :=
  (fail_validation keyErrorMessage messageForError getInfoForKey).
Local Abbreviation write_method' :=
  (write_method isServer meteorUserId allowsKey schema_clean ctx_validate
     keyErrorMessage messageForError getInfoForKey super_result newID).

Lemma detach_id_result (doc id : value) (st st' : State) :
  detach_id isServer allowsKey doc st = (Returned id, st') ->
  id = detached isServer allowsKey (heap st) doc.
Proof.
  unfold detach_id, detached, read_field. destruct isServer; simpl.
  - destruct doc; run; try discriminate.
    all: try (intros [= <- <-]; reflexivity).
    destruct (truthy _ && negb _); run; intros [= <- <-]; reflexivity.
  - run. intros [= <- <-]. reflexivity.
Qed.

(** What a pass that returns has made of the arguments. *)
Lemma validation_pass_shape (type : string) (skip : bool) (uid : value)
    (trusted : bool) (args : list value) (st st1 : State) (pass : Pass) :
  validation_pass' type skip uid trusted args st = (Returned pass, st1) ->
  match pass with
  | Skipped a =>
      a = pass_args type args
      /\ field (heap st) (pass_options type args) "validate" = VBool false
      /\ heap st1 = heap st /\ trace st1 = trace st
      /\ contexts st1 = contexts st
  | Checked v id doc options callback vCtx a =>
      a = pass_args type args /\ doc = pass_doc type args
      /\ options = pass_options type args
      /\ callback = pass_callback isServer type args
      /\ id = detached isServer allowsKey (heap st) (pass_doc type args)
      /\ field (heap st) (pass_options type args) "validate" <> VBool false
  end.
Proof.
  unfold validation_pass. destruct (bool_decide (args = [])); [discriminate|].
  intros H.
  apply bind_returned in H as ([] & st2 & Hsel & H).
  injection Hsel as <-.
  apply bind_returned in H as ([[[doc options] callback] args'] & st3 & Hg & H).
  assert (Hgather : doc = pass_doc type args /\ args' = pass_args type args
                    /\ (heap st3 = heap st /\ trace st3 = trace st
                        /\ contexts st3 = contexts st)
                    /\ (if negb (truthy callback) && is_function options
                        then (options, VUndef) else (callback, options))
                       = (pass_supplied_callback type args,
                          pass_options type args)).
  { revert Hg.
    unfold gather, pass_doc, pass_args, pass_options, pass_supplied_callback,
      pass_swap.
    destruct (String.eqb type "insert").
    - run. intros [= <- <- <- <- <-]. simpl.
      destruct (negb (truthy (arg 2 args)) && is_function (arg 1 args));
        repeat split; reflexivity.
    - destruct (_ || _); [|discriminate]. run. intros [= <- <- <- <- <-]. simpl.
      destruct (negb (truthy (arg 3 args)) && is_function (arg 2 args));
        repeat split; reflexivity. }
  destruct Hgather as (-> & -> & (Hheap & Htrace & Hctx) & Hswap).
  rewrite Hswap in H. clear Hswap Hg.
  apply bind_returned in H as (h & st4 & Hh & H).
  injection Hh as <- <-. rewrite Hheap in H.
  destruct (strict_eq _ _) eqn:Hval.
  { injection H as <- <-. apply strict_eq_true in Hval. auto. }
  apply strict_eq_false in Hval.
  apply bind_returned in H as (id & st5 & Hd & H).
  apply detach_id_result in Hd. rewrite Hheap in Hd. subst id.
  revert H.
  match goal with
  | |- ?m st5 = _ -> _ =>
      assert (E : ensures (fun p _ =>
                   match p with
                   | Skipped _ => False
                   | Checked v id doc options callback vCtx a =>
                       a = pass_args type args /\ doc = pass_doc type args
                       /\ options = pass_options type args
                       /\ callback = pass_callback isServer type args
                       /\ id = detached isServer allowsKey (heap st)
                                 (pass_doc type args)
                   end) m)
  end.
  { repeat ensures_walk. intros ? ? ?. run. intros [= <- <-].
    unfold pass_callback. repeat split; reflexivity. }
  intros H. apply E in H. destruct pass; [contradiction|].
  destruct H as (? & ? & ? & ? & ?). auto 10.
Qed.

(** *** Usage errors *)

(** A call without arguments, or with an operation kind that is none of the
    three, is answered by a thrown error whether or not a callback is among
    the arguments: nothing is called; without arguments the state is
    untouched, with an invalid kind only the cached selector is reset. *)
Theorem usage_errors_are_thrown (type : string) (skip : bool) (uid : value)
    (trusted : bool) (args : list value) (st : State) :
  (args = [] ->
   doValidate' type skip uid trusted args st
   = (Thrown (new_Error (type +:+ " requires an argument")), st)
   /\ write_method' true type args st
      = (Thrown (new_Error (type +:+ " requires an argument")), st))
  /\ (args <> [] -> type <> "insert" -> type <> "update" -> type <> "upsert" ->
      doValidate' type skip uid trusted args st
      = (Thrown (new_Error "invalid type argument"),
         {| heap := heap st; cached_selector := VNull;
            contexts := contexts st; trace := trace st |})).
Proof.
  split.
  - intros ->. split; reflexivity.
  - intros Hne H1 H2 H3. unfold doValidate, validation_pass, gather.
    rewrite bool_decide_eq_false_2 by assumption.
    apply String.eqb_neq in H1, H2, H3. rewrite H1, H2, H3. reflexivity.
Qed.

(** *** The underlying storage method *)

(** A wrapped write calls the underlying storage method at most once, and
    then as the last thing it does, returning what that method returns;
    everything before it is cleaning, validation and callbacks. *)
Theorem storage_called_last_or_never (has_c2 : bool) (methodName : string)
    (args : list value) (st st' : State) (r : Outcome value) :
  write_method' has_c2 methodName args st = (r, st') ->
  appends not_storage_call st st'
  \/ exists evs args',
       trace st' = (trace st ++ evs ++ [EvSuper methodName args'])%list
       /\ Forall not_storage_call evs
       /\ r = Returned (super_result methodName args').
Proof.
  unfold write_method. destruct has_c2.
  - run.
    match goal with
    | |- context [doValidate' ?t ?s ?u ?tr ?a st] =>
        pose proof (doValidate_no_storage isServer meteorUserId allowsKey
                      schema_clean ctx_validate keyErrorMessage messageForError
                      getInfoForKey super_result t s u tr a st) as Hsto;
        destruct (doValidate' t s u tr a st) as [[[args'|]|e] st1]
    end.
    + destruct (Hsto _ _ eq_refl) as (evs & Htr & Hev).
      intros [= <- <-]. right. exists evs, args'. simpl. rewrite Htr.
      rewrite <- app_assoc. auto.
    + specialize (Hsto _ _ eq_refl).
      destruct (String.eqb methodName "insert"); simpl; intros [= <- <-]; left.
      * etransitivity; [exact Hsto|]. exists [EvMakeNewID].
        split; [reflexivity|]. repeat constructor. intros [].
      * exact Hsto.
    + intros [= <- <-]. left. exact (Hsto _ _ eq_refl).
  - run. intros [= <- <-]. right. exists [], args. simpl. auto.
Qed.

(** *** What a validated write forwards *)

Lemma set_arg_head (v x : value) (rest : list value) :
  set_arg 0 v (x :: rest) = v :: rest.
Proof. reflexivity. Qed.

Lemma set_arg_second (v x y : value) (rest : list value) :
  set_arg 1 v (x :: y :: rest) = x :: v :: rest.
Proof. reflexivity. Qed.

Lemma fail_validation_returns_none (vCtx callback : value) (st st' : State)
    (r : option (list value)) :
  fail_validation' vCtx callback st = (Returned r, st') -> r = None.
Proof.
  unfold fail_validation. intros H.
  apply bind_returned in H as (ks & st1 & _ & H).
  destruct (truthy callback); [|discriminate].
  apply bind_returned in H as ([] & st2 & _ & H).
  injection H as <- _. reflexivity.
Qed.

Lemma finish_valid_result (type : string) (id doc options : value)
    (args : list value) (st st' : State) (r : option (list value)) :
  finish_valid type id doc options args st = (Returned r, st') ->
  r = Some (forwarded_args type doc
              (field (heap st') options "validationContext") args)
  /\ trace st' = trace st /\ contexts st' = contexts st
  /\ (truthy id = false -> heap st' = heap st).
Proof.
  unfold finish_valid. intros H.
  apply bind_returned in H as ([] & st1 & Hw & H).
  apply bind_returned in H as (h & st2 & Hh & H).
  injection Hh as <- <-. injection H as <- <-.
  split; [reflexivity|].
  destruct (truthy id).
  - unfold write_field in Hw. destruct doc; try discriminate;
      revert Hw; run; intros [= <-]; repeat split; discriminate.
  - injection Hw as <-. repeat split; reflexivity.
Qed.

(** What [doValidate] hands back for a run that returns an argument list:
    the list of line 336 when validation is switched off, the list of lines
    447-457 when validation passed. *)
Lemma doValidate_returns (type : string) (skip : bool) (uid : value)
    (trusted : bool) (args args' : list value) (st st' : State) :
  doValidate' type skip uid trusted args st = (Returned (Some args'), st') ->
  (field (heap st) (pass_options type args) "validate" = VBool false
   /\ args' = pass_args type args /\ heap st' = heap st)
  \/ (field (heap st) (pass_options type args) "validate" <> VBool false
      /\ exists st1 vCtx,
           args' = forwarded_args type (pass_doc type args) vCtx
                     (pass_args type args)
           /\ finish_valid type
                (detached isServer allowsKey (heap st) (pass_doc type args))
                (pass_doc type args) (pass_options type args)
                (pass_args type args) st1
              = (Returned (Some args'), st')).
Proof.
  unfold doValidate. intros H.
  apply bind_returned in H as (pass & st1 & Hpass & H).
  apply validation_pass_shape in Hpass.
  destruct pass as [a|v id doc options callback vCtx a].
  - destruct Hpass as (-> & Hoff & Hheap & _). injection H as <- <-. auto.
  - destruct Hpass as (-> & -> & -> & -> & -> & Hon).
    destruct v.
    + right. split; [exact Hon|].
      destruct (finish_valid_result _ _ _ _ _ _ _ _ H) as ([= ->] & _).
      eauto.
    + apply fail_validation_returns_none in H. discriminate.
Qed.

(** The underlying insert never receives the options: an insert that goes
    through hands on the document alone or the document and the caller's
    callback, the callback as it is when validation is switched off and
    wrapped by the translator when validation passed. *)
Theorem insert_forwards_document_and_callback (skip : bool) (uid : value)
    (trusted : bool) (args args' : list value) (st st' : State) :
  is_function (arg 0 args) = false ->
  doValidate' "insert" skip uid trusted args st = (Returned (Some args'), st') ->
  let doc := arg 0 args in
  let callback :=
    if is_function (arg 1 args) then arg 1 args else arg 2 args in
  let validate_off :=
    field (heap st) (pass_options "insert" args) "validate" = VBool false in
  (is_function callback = false -> args' = [doc])
  /\ (is_function callback = true ->
      (validate_off /\ args' = [doc; callback])
      \/ (~ validate_off
          /\ exists vCtx,
               args' = [doc; wrapCallbackForNotUnique doc vCtx callback])).
Proof.
  intros Hdoc H doc callback validate_off.
  apply doValidate_returns in H.
  assert (Hargs : pass_args "insert" args
                  = if is_function callback then [doc; callback] else [doc]).
  { unfold pass_args, callback, doc. simpl.
    destruct (is_function (arg 1 args)) eqn:E1; [rewrite E1; reflexivity|].
    reflexivity. }
  change (pass_doc "insert" args) with doc in H.
  fold doc in Hdoc. clearbody callback doc.
  assert (Hfw : forall vCtx,
            forwarded_args "insert" doc vCtx (pass_args "insert" args)
            = if is_function callback
              then [doc; wrapCallbackForNotUnique doc vCtx callback]
              else [doc]).
  { intros vCtx. rewrite Hargs. unfold forwarded_args.
    destruct (is_function callback) eqn:Ec; simpl.
    - rewrite set_arg_head, set_arg_second. change (arg 1 [doc; callback]) with callback.
      rewrite Ec. reflexivity.
    - rewrite set_arg_head. change (arg 0 [doc]) with doc.
      rewrite Hdoc. reflexivity. }
  destruct H as [(Hoff & -> & _) | (Hon & st1 & vCtx & -> & _)].
  - rewrite Hargs. split; intros Hc; rewrite Hc; auto.
  - rewrite Hfw. split; intros Hc; rewrite Hc; [reflexivity|].
    right. split; [exact Hon | eauto].
Qed.

(** *** The [_id] of a write that goes through *)

(** On the server, when the document of a write is an object with a truthy
    [_id] the schema does not declare and [doValidate] returns an argument
    list, the object holds its original [_id] again at that point, whatever
    cleaning did, and it is that object that the list carries. *)
Theorem returned_write_keeps_id (type : string) (skip : bool) (uid : value)
    (trusted : bool) (args args' : list value) (st st' : State) (l : loc) :
  isServer = true ->
  allowsKey "_id" = false ->
  pass_doc type args = VObj l ->
  truthy (field (heap st) (VObj l) "_id") = true ->
  doValidate' type skip uid trusted args st = (Returned (Some args'), st') ->
  field (heap st') (VObj l) "_id" = field (heap st) (VObj l) "_id".
Proof.
  intros Hs Ha Hdoc Hid H.
  apply doValidate_returns in H.
  destruct H as [(_ & _ & Hheap) | (_ & st1 & vCtx & _ & H)].
  - rewrite Hheap. reflexivity.
  - rewrite Hdoc in H. unfold detached in H.
    rewrite Hs, Ha, Hid in H. simpl andb in H. cbv iota in H.
    apply finish_valid_restores in H; assumption.
Qed.

(** *** Failures on the client and what a failed write returns *)

Lemma invoke_throws_TypeError (f : value) (error : option ErrorObj)
    (rest : list value) (st st' : State) (e : ErrorObj) :
  invoke' f error rest st = (Thrown e, st') -> e = TypeError.
Proof.
  revert st. induction f; intros st; cbn [invoke]; run;
    try (intros [= <- _]; reflexivity); try discriminate.
  - destruct error; discriminate.
  - destruct error as [err|].
    + destruct (looks_like_duplicate_key err).
      * unfold push_notUnique.
        destruct (split "c2_" (err_message err)) as [|p0 [|p1 ps]]; run;
          try (intros [= <- _]; reflexivity); apply IHf3.
      * run. apply IHf3.
    + run. apply IHf3.
Qed.

(** On the client a failed validation is never thrown at the caller: a
    callback always exists, and when the caller supplied none the failure
    is logged and [doValidate] returns nothing; the only error a failing
    run can raise is the one for calling something that is not a function. *)
Theorem client_failure_is_reported (type : string) (skip : bool) (uid : value)
    (trusted : bool) (args : list value) (st st1 : State)
    (id doc options callback vCtx : value) (args1 : list value) :
  isServer = false ->
  validation_pass' type skip uid trusted args st
  = (Returned (Checked false id doc options callback vCtx args1), st1) ->
  let error :=
    validation_error keyErrorMessage (context_keys vCtx (contexts st1)) in
  let outcome := doValidate' type skip uid trusted args st in
  truthy callback = true
  /\ (truthy (pass_supplied_callback type args) = false ->
      outcome = (Returned None, logged st1 (EvDebug (type +:+ " failed: ") error)))
  /\ (forall e st', outcome = (Thrown e, st') -> e = TypeError).
Proof.
  intros Hclient Hpass error outcome.
  assert (Hout : outcome
                 = (invoke' callback (Some error) [VBool false];; mret None) st1
                   /\ truthy callback = true
                   /\ (truthy (pass_supplied_callback type args) = false ->
                       callback = VLogger type)).
  { pose proof (validation_pass_shape _ _ _ _ _ _ _ _ Hpass)
      as (_ & _ & _ & Hcb & _).
    unfold pass_callback, isClient in Hcb. rewrite Hclient in Hcb. simpl in Hcb.
    assert (Ht : truthy callback = true).
    { rewrite Hcb. destruct (truthy (pass_supplied_callback type args)) eqn:E;
        [exact E | reflexivity]. }
    split; [|split; [exact Ht|]].
    - unfold outcome, doValidate. unfold mbind at 1, M_bind at 1.
      rewrite Hpass. unfold fail_validation. run. fold error. rewrite Ht.
      reflexivity.
    - intros E. rewrite E in Hcb. exact Hcb. }
  destruct Hout as (Hout & Ht & Hlog).
  split; [exact Ht|]. split.
  - intros E. rewrite Hout, (Hlog E). reflexivity.
  - intros e st'. rewrite Hout. run.
    destruct (invoke' callback (Some error) [VBool false] st1)
      as [[[]|e'] st2] eqn:E; [discriminate|].
    intros [= <- _]. eapply invoke_throws_TypeError, E.
Qed.

(** A write that fails validation and reports it to the caller's callback
    returns a newly made identifier for an insert and [undefined] for an
    update or upsert, after the callback has been given the error and
    [false]. *)
Theorem failed_write_result (type : string) (args : list value)
    (st st1 : State) (id doc options vCtx : value) (n : nat)
    (args1 : list value) :
  let uid := if isClient isServer && truthy meteorUserId then meteorUserId
             else VNull in
  validation_pass' type false uid isServer args st
  = (Returned (Checked false id doc options (VFun n) vCtx args1), st1) ->
  let error :=
    validation_error keyErrorMessage (context_keys vCtx (contexts st1)) in
  let reported := logged st1 (EvCall (VFun n) (Some error) [VBool false]) in
  write_method' true type args st
  = if String.eqb type "insert"
    then (Returned newID, logged reported EvMakeNewID)
    else (Returned VUndef, reported).
Proof.
  intros uid Hpass error reported. unfold write_method. fold uid.
  unfold mbind at 1, M_bind at 1. unfold doValidate.
  unfold mbind at 1, M_bind at 1. rewrite Hpass.
  unfold fail_validation. run. fold error.
  destruct (String.eqb type "insert"); reflexivity.
Qed.

(** *** Cleaning on the server *)




(** *** The deny hooks *)

Variable clean_with_defaults :
  HookCleanOptions -> value -> gmap loc obj -> gmap loc obj.

Local Abbreviation deny_insert_clean' :=
  (deny_insert_clean isServer allowsKey clean_with_defaults).
Local Abbreviation deny_validate' :=
  (deny_validate isServer allowsKey schema_clean ctx_validate keyErrorMessage
     messageForError getInfoForKey).

(** The cleaning hooks never deny.  The insert hook, given a document
    object, returns [false] whatever cleaning does, calls nothing, and on
    the server hands a document with a truthy undeclared [_id] to cleaning
    without it and gives it back its [_id] afterwards. *)
Theorem cleaning_hook_keeps_id (uid : value) (l : loc) (st : State) :
  exists st',
    deny_insert_clean' uid (VObj l) st = (Returned false, st')
    /\ trace st' = trace st
    /\ (forall modifier r st'',
          deny_update_clean clean_with_defaults uid modifier st = (r, st'') ->
          r = Returned false)
    /\ (isServer = true -> allowsKey "_id" = false ->
        truthy (field (heap st) (VObj l) "_id") = true ->
        field (heap st') (VObj l) "_id" = field (heap st) (VObj l) "_id"
        /\ exists opts h0,
             field h0 (VObj l) "_id" = VUndef
             /\ heap st'
                = <[l := prop_set "_id" (field (heap st) (VObj l) "_id")
                           (props_of (clean_with_defaults opts (VObj l) h0) l)]>
                    (clean_with_defaults opts (VObj l) h0)).
Proof.
  unfold deny_insert_clean, detach_id.
  destruct isServer; run.
  - destruct (truthy (default VUndef (prop_get "_id" (props_of (heap st) l)))
              && negb (allowsKey "_id")) eqn:E; run.
    + apply andb_true_iff in E as [Et Ea]. rewrite Et. run.
      eexists. split; [reflexivity|]. split; [reflexivity|].
      split; [intros modifier r st''; intros [= <- _]; reflexivity|].
      intros _ _ _. split.
      * cbn [heap]. unfold props_of at 1. rewrite lookup_insert_eq. simpl.
        rewrite prop_get_set. reflexivity.
      * eexists _, _. split; [|reflexivity]. cbn [field].
        unfold props_of at 1. rewrite lookup_insert_eq. simpl.
        rewrite prop_get_delete. reflexivity.
    + eexists. split; [reflexivity|]. split; [reflexivity|].
      split; [intros modifier r st''; intros [= <- _]; reflexivity|].
      intros _ Ha Ht. rewrite Ha, Ht in E. discriminate.
  - eexists. split; [reflexivity|]. split; [reflexivity|].
    split; [intros modifier r st''; intros [= <- _]; reflexivity|].
    discriminate.
Qed.

Lemma validation_pass_appends (P : Event -> Prop) (type : string) (skip : bool)
    (uid : value) (trusted : bool) (args : list value) :
  (forall d o, P (EvClean d o)) ->
  (forall c d o, P (EvValidate c d o)) ->
  stable (appends P) (validation_pass' type skip uid trusted args).
Proof.
  intros Hc Hv.
  unfold validation_pass, gather, detach_id, doClean, merge_selector.
  stable_auto; apply appends_log; auto.
Qed.

Lemma called_with_error_none (f : value) (evs : list Event) :
  Forall not_function_call evs -> called_with_error f evs = false.
Proof.
  induction 1 as [|e evs He _ IH]; [reflexivity|].
  unfold called_with_error in *. simpl. rewrite IH.
  destruct e; try reflexivity. contradiction.
Qed.

(** The validating hooks deny exactly the writes the validation they run
    finds invalid: the result of the insert hook and of the update hook is
    the negation of the verdict, whose invalid keys are left in the
    validation context. *)
Theorem validating_hooks_deny_invalid (uid : value) (cb : nat) (st : State) :
  forall type before,
    (type = "insert" /\ exists doc, before = [doc])
    \/ (type = "update" /\ exists modifier, before = [VNull; modifier]) ->
    forall b st',
      deny_validate' type uid before cb st = (Returned b, st') ->
      exists vopts vCtx docToValidate h sel,
        ctx_validate vopts vCtx docToValidate h sel
        = (negb b, context_keys vCtx (contexts st')).
Proof.
  intros type before Hshape b st'. unfold deny_validate, alloc, get_trace. run.
  set (lo := fresh (dom (heap st))).
  match goal with
  | |- context [doValidate' _ _ _ _ ?a ?s0] => set (args := a); set (st0 := s0)
  end.
  destruct (doValidate' type true uid false args st0) as [[r|e] st2] eqn:Hrun;
    [|discriminate].
  intros [= <- <-]. revert Hrun. unfold doValidate. intros H.
  apply bind_returned in H as (pass & st1 & Hpass & H).
  pose proof (validation_pass_shape _ _ _ _ _ _ _ _ Hpass) as Hshape'.
  pose proof (validation_pass_validated _ _ _ _ _ _ _ _ _ _ _ _ Hpass) as Hval.
  pose proof (validation_pass_appends not_function_call _ _ _ _ _
                (fun _ _ => I) (fun _ _ _ => I) _ _ _ Hpass)
    as (evs & Htrace & Hevs).
  assert (Hopts : pass_options type args = VObj lo
                  /\ pass_callback isServer type args = VFun cb).
  { unfold pass_options, pass_callback, pass_supplied_callback, pass_swap, args.
    destruct Hshape as [(-> & doc & ->) | (-> & modifier & ->)]; simpl;
      rewrite andb_false_r; split; reflexivity. }
  destruct Hopts as (Hopts & Hcb).
  destruct pass as [a|v id doc options callback vCtx a].
  - destruct Hshape' as (_ & Hoff & _). rewrite Hopts in Hoff.
    unfold st0 in Hoff. simpl in Hoff. unfold props_of in Hoff.
    rewrite lookup_insert_eq in Hoff. discriminate.
  - destruct Hshape' as (_ & _ & _ & -> & _). rewrite Hcb in H.
    destruct Hval as (_ & vopts & d & h & sel & Hverdict).
    exists vopts, vCtx, d, h, sel.
    change (trace st0) with (trace st) in Htrace.
    destruct v.
    + destruct (finish_valid_result _ _ _ _ _ _ _ _ H) as (_ & Htr & Hctx & _).
      rewrite Htr, Htrace, drop_app_length, Hctx.
      rewrite called_with_error_none by assumption. exact Hverdict.
    + revert H. unfold fail_validation. run. intros [= _ <-]. simpl.
      rewrite Htrace, <- app_assoc, drop_app_length.
      unfold called_with_error. rewrite existsb_app. simpl.
      rewrite bool_decide_eq_true_2 by reflexivity.
      rewrite orb_true_r. exact Hverdict.
Qed.

End WritePathFurther.

(** ** Further properties at sample inputs *)

Lemma translator_transparent_witness :
  sample_invoke (wrapCallbackForNotUnique (VObj 1) VUndef (VFun 0))
    (Some (new_Error "connection lost")) [] sample_state
  = sample_invoke (VFun 0) (Some (new_Error "connection lost")) [] sample_state.
Proof.
  apply (translator_transparent must_be_unique top_level_value (VObj 1) VUndef
           (VFun 0) (Some (new_Error "connection lost")) [] sample_state).
  intros e [= <-]. reflexivity.
Defined.


Lemma storage_called_last_or_never_witness :
  let run := sample_write_method true true "insert" [VObj 6; VFun 0]
               sample_state in
  appends not_storage_call sample_state (snd run)
  \/ exists evs args',
       trace (snd run)
       = (trace sample_state ++ evs ++ [EvSuper "insert" args'])%list
       /\ Forall not_storage_call evs
       /\ fst run = Returned (stored_id "insert" args').
Proof.
  intros run.
  apply (storage_called_last_or_never true VUndef no_key_allowed clean_nothing
           name_required first_message must_be_unique top_level_value
           stored_id (VStr "fresh-id") true "insert" [VObj 6; VFun 0]
           sample_state (snd run) (fst run)).
  apply surjective_pairing.
Defined.

Lemma insert_forwards_document_and_callback_witness :
  fst (sample_doValidate true "insert" false VNull true [VObj 6; VFun 0]
         sample_state)
  = Returned (Some [VObj 6; wrapCallbackForNotUnique (VObj 6) VUndef (VFun 0)]).
Proof.
  pose (run := sample_doValidate true "insert" false VNull true
                 [VObj 6; VFun 0] sample_state).
  assert (Hrun : run
                 = (Returned (Some [VObj 6; wrapCallbackForNotUnique (VObj 6)
                                               VUndef (VFun 0)]),
                    snd run))
    by (vm_compute; reflexivity).
  destruct (insert_forwards_document_and_callback true no_key_allowed
              clean_nothing name_required first_message must_be_unique
              top_level_value false VNull true [VObj 6; VFun 0] _ sample_state
              (snd run) eq_refl Hrun)
    as [_ Hcb].
  fold run. rewrite Hrun. reflexivity.
Defined.

Lemma returned_write_keeps_id_witness :
  field (heap (snd (sample_doValidate true "insert" false VNull true
                      [VObj 6; VFun 0] sample_state)))
    (VObj 6) "_id"
  = VStr "abc".
Proof.
  pose (run := sample_doValidate true "insert" false VNull true
                 [VObj 6; VFun 0] sample_state).
  assert (Hrun : run
                 = (Returned (Some [VObj 6; wrapCallbackForNotUnique (VObj 6)
                                               VUndef (VFun 0)]),
                    snd run))
    by (vm_compute; reflexivity).
  exact (returned_write_keeps_id true no_key_allowed clean_nothing
           name_required first_message must_be_unique top_level_value
           "insert" false VNull true [VObj 6; VFun 0] _ sample_state (snd run)
           6%positive eq_refl eq_refl eq_refl eq_refl Hrun).
Defined.

Lemma client_failure_is_reported_witness :
  let pass := sample_validation_pass false "insert" false VNull false [VObj 1]
                sample_state in
  sample_doValidate false "insert" false VNull false [VObj 1] sample_state
  = (Returned None,
     logged (snd pass)
       (EvDebug "insert failed: "
          (validation_error first_message
             (context_keys VUndef (contexts (snd pass)))))).
Proof.
  intros pass.
  assert (Hpass : pass
                  = (Returned (Checked false VUndef (VObj 1) VUndef
                                 (VLogger "insert") VUndef [VObj 1]),
                     snd pass))
    by (vm_compute; reflexivity).
  destruct (client_failure_is_reported false no_key_allowed clean_nothing
              name_required first_message must_be_unique top_level_value
              "insert" false VNull false [VObj 1] sample_state (snd pass)
              VUndef (VObj 1) VUndef (VLogger "insert") VUndef [VObj 1]
              eq_refl Hpass)
    as (_ & Hlog & _).
  exact (Hlog eq_refl).
Defined.

Lemma failed_write_result_witness :
  fst (sample_write_method true true "insert" [VObj 1; VFun 0] sample_state)
  = Returned (VStr "fresh-id").
Proof.
  pose (pass := sample_validation_pass true "insert" false VNull true
                  [VObj 1; VFun 0] sample_state).
  assert (Hpass : pass
                  = (Returned (Checked false (VStr "abc") (VObj 1) VUndef
                                 (VFun 0) VUndef [VObj 1; VFun 0]),
                     snd pass))
    by (vm_compute; reflexivity).
  unfold sample_write_method.
  rewrite (failed_write_result true VUndef no_key_allowed clean_nothing
             name_required first_message must_be_unique top_level_value
             stored_id (VStr "fresh-id") "insert" [VObj 1; VFun 0]
             sample_state (snd pass) (VStr "abc") (VObj 1) VUndef VUndef 0
             [VObj 1; VFun 0] Hpass).
  reflexivity.
Defined.

Lemma validating_hooks_deny_invalid_witness :
  fst (sample_deny_validate "insert" VNull [VObj 1] 0 sample_state)
  = Returned true
  /\ exists vopts vCtx docToValidate h sel,
       name_required vopts vCtx docToValidate h sel
       = (negb true,
          context_keys vCtx
            (contexts (snd (sample_deny_validate "insert" VNull [VObj 1] 0
                              sample_state)))).
Proof.
  split; [vm_compute; reflexivity|].
  apply (validating_hooks_deny_invalid true no_key_allowed clean_nothing
           name_required first_message must_be_unique top_level_value VNull 0
           sample_state "insert" [VObj 1]).
  - left. split; [reflexivity | exists (VObj 1); reflexivity].
  - vm_compute. reflexivity.
Defined.

Lemma selector_merge_precedence_witness :
  exists lm st',
    merge_selector (VObj 4) upsert_state = (Returned tt, st')
    /\ field (heap st') (VObj 4) "$set" = VObj lm
    /\ prop_get "status" (props_of (heap st') lm) = Some (VStr "open")
    /\ prop_get "code" (props_of (heap st') lm) = Some (VStr "X").
Proof.
  assert (Hsome : forall l : loc,
            (l = 3 \/ l = 4 \/ l = 5)%positive ->
            is_Some (heap upsert_state !! l)).
  { intros l [-> | [-> | ->]]; eexists; vm_compute; reflexivity. }
  destruct (selector_merge_precedence 4 3 5 upsert_state eq_refl eq_refl
              (Hsome _ (or_intror (or_introl eq_refl)))
              (Hsome _ (or_introl eq_refl))
              (Hsome _ (or_intror (or_intror eq_refl)))
              ltac:(discriminate) ltac:(discriminate))
    as (lm & st' & Hrun & _ & Hset & Hget & _).
  - vm_compute. repeat constructor; set_solver.
  - exists lm, st'. split; [exact Hrun|]. split; [exact Hset|].
    split; rewrite Hget; reflexivity.
Defined.

